(** * MicroShift: the [run] command and its service lifecycle

    A shallow embedding of [RunMicroshift] (package [cmd]): the two
    cancellable contexts, the certificate watcher goroutine, the goroutine
    that runs the service manager, the signal channel and the two [select]
    statements of the main goroutine.  The goroutines are modelled as program
    counters in one state record; a labelled, executable step function says
    which goroutine moves and which [select] case it takes, and returns
    [None] when that case is not ready.  Time is the clock reading in
    nanoseconds, as [time.Duration] counts it.

    Package [servicemanager] is not part of the sources at hand; module
    [ServiceManager] models it from the specification.  Module [Config]
    embeds package [config], which [RunMicroshift] validates its
    configuration with. *)

From Stdlib Require Import ZArith List Bool String Ascii Lia Arith.
From Stdlib Require Import Sorting.Sorted Structures.OrderedTypeEx.
Import ListNotations.
Open Scope string_scope.

Set Implicit Arguments.

(** ** Go's [context] package, as far as [RunMicroshift] uses it *)

Module Context.

(** A context derived from [context.Background()]: an optional deadline
    and the flag its [CancelFunc] sets. *)
Record t : Type := mk { deadline : option Z; cancelled : bool }.

Definition WithDeadline (d : Z) : t := mk (Some d) false.
Definition WithCancel : t := mk None false.

(** Calling the [CancelFunc]; calling it again changes nothing. *)
Definition cancel (c : t) : t := mk (deadline c) true.

(** Whether [<-ctx.Done()] is ready when the clock reads [now]. *)
Definition Done (now : Z) (c : t) : bool :=
  cancelled c ||
  match deadline c with
  | Some d => (d <=? now)%Z
  | None => false
  end.

End Context.

(** ** [time.Duration] arithmetic *)

Definition wrap64 (z : Z) : Z :=
  ((z + 2 ^ 63) mod 2 ^ 64 - 2 ^ 63)%Z.

(** [time.Second], in nanoseconds. *)
Definition Second : Z := 1000000000%Z.

(** const gracefulShutdownTimeout = 60 *)
Definition gracefulShutdownTimeout : Z := 60%Z.

(** [time.Duration(gracefulShutdownTimeout) * time.Second], an int64
    product. *)
Definition gracePeriod : Z := wrap64 (gracefulShutdownTimeout * Second).

(** ** The service manager (package [servicemanager])

    [RunMicroshift] only calls [NewServiceManager], [AddService], [Name]
    and [Run]; the package itself is not among the sources.  What follows
    is its contract as the specification words it. *)

Module ServiceManager.

(** Modelled from the spec: the errors of the manager's [register] and
    [run] (their declarations are in the missing package).
    [DuplicateName] and [AlreadyRunning] are the two registration errors;
    a startup failure carries the failing service's name and its error; a
    combined error names every service that failed. *)
Inductive Error : Type :=
| DuplicateName (name : string)
| AlreadyRunning
| StartupFailure (name err : string)
| Combined (failures : list (string * string)).

(** Modelled from the spec: the Service contract (the missing interface
    [servicemanager.Service]), of which registration uses the name only:
    "identity is by name". *)
Class Service (S : Type) : Type := { Name : S -> string }.

Section Registry.

Context {S : Type} `{Service S}.

(** Modelled from the spec: the Registry (the missing struct
    [ServiceManager]): "an ordered sequence of Services, insertion
    order significant", and whether a Run Session has started. *)
Record Manager : Type := mkManager {
  services : list S;
  running : bool
}.

(** Modelled from the spec: the missing constructor
    [NewServiceManager]: an empty registry, not running. *)
Definition NewServiceManager : Manager := mkManager [] false.

(** Modelled from the spec: whether the missing registry already holds
    a service of that name. *)
Definition registered (m : Manager) (n : string) : bool :=
  existsb (fun s => String.eqb (Name s) n) (services m).

(** Modelled from the spec: the missing method [AddService], the
    spec's [register]: "fails with DuplicateName if a service with the
    same name is already registered. Registration after a Run Session
    has started fails with AlreadyRunning"; "for any duplicate, it
    always fails with DuplicateName".  The result is the registry
    afterwards and the error. *)
Definition AddService (m : Manager) (s : S) : Manager * option Error :=
  if registered m (Name s) then (m, Some (DuplicateName (Name s)))
  else if running m then (m, Some AlreadyRunning)
  else (mkManager (services m ++ [s]) (running m), None).

(** Modelled from the spec: the sixteen [util.Must(m.AddService(...))]
    calls of [RunMicroshift] over the missing [AddService]: services
    are registered in order, and the first error ends the process. *)
Fixpoint MustAddAll (m : Manager) (l : list S) : Manager + Error :=
  match l with
  | [] => inl m
  | s :: l' =>
      match AddService m s with
      | (m', None) => MustAddAll m' l'
      | (_, Some e) => inr e
      end
  end.

End Registry.

Arguments Manager S : clear implicits.

(** Modelled from the spec: the plainest implementation of the missing
    Service interface, a service that is its name; the concrete sessions
    below register such services. *)
#[global] Instance NamedService : Service string := {| Name := fun n => n |}.

(** *** A Run Session *)

(** Modelled from the spec: what the missing manager sees of one service
    during a session: "running" / "reported ready" / "stopped
    (ok|error)".  [outcome] is [None] while the service's [run] has not
    returned. *)
Record Unit : Type := mkUnit {
  uname : string;
  signalled : bool;
  outcome : option (option string)
}.

(** Modelled from the spec: a service of the missing manager whose [run]
    has not returned. *)
Definition alive (u : Unit) : bool :=
  match outcome u with None => true | Some _ => false end.

(** Modelled from the spec: the Run Session of the missing [Run]: the
    services in registration order, the shared scope, the number of
    writes to [readyOut], the aggregate outcome written to [stoppedOut],
    what [run] returned once it has, and the order in which the manager
    stopped services itself. *)
Record Session : Type := mkSession {
  units : list Unit;
  scopeCancelled : bool;
  readyOut : nat;
  stoppedOut : option (option Error);
  returned : option (option Error);
  stopOrder : list string
}.

(** Modelled from the spec: what a session of the missing manager reacts
    to: a service invokes its readiness signal, a service's [run]
    returns (with an error or nil), the scope handed to [run] is
    cancelled. *)
Inductive Event : Type :=
| SvcReady (name : string)
| SvcReturn (name : string) (err : option string)
| Cancel.

(** Modelled from the spec: the services' side of an event of the
    missing [Run].  A service signals from within its [run], so only a
    live service can signal or return; a repeated signal is a no-op. *)
Definition markReady (n : string) (u : Unit) : Unit :=
  if String.eqb (uname u) n && alive u
  then mkUnit (uname u) true (outcome u)
  else u.

(** Modelled from the spec: a live service of the missing manager
    returns from [run]. *)
Definition markReturned (n : string) (err : option string) (u : Unit) : Unit :=
  if String.eqb (uname u) n && alive u
  then mkUnit (uname u) (signalled u) (Some err)
  else u.

(** Modelled from the spec: the aggregate outcome of the missing [Run]:
    "a combined error that identifies every failing service by name",
    nil when none failed. *)
Fixpoint failures (us : list Unit) : list (string * string) :=
  match us with
  | [] => []
  | u :: us' =>
      match outcome u with
      | Some (Some e) => (uname u, e) :: failures us'
      | _ => failures us'
      end
  end.

(** Modelled from the spec: nil or the combined error (missing [Run]). *)
Definition aggregate (us : list Unit) : option Error :=
  match failures us with
  | [] => None
  | fs => Some (Combined fs)
  end.

(** Modelled from the spec: the names of the services the missing
    manager still has to stop, "in reverse registration order". *)
Definition reverseStopOrder (us : list Unit) : list string :=
  rev (map uname (filter alive us)).

(** Modelled from the spec: "aggregate readiness ... is emitted only
    after every registered service has signaled its own readiness", and
    once (missing [Run]). *)
Definition emitReady (s : Session) : Session :=
  if forallb signalled (units s) && (readyOut s =? 0)%nat
  then mkSession (units s) (scopeCancelled s) (S (readyOut s))
                 (stoppedOut s) (returned s) (stopOrder s)
  else s.

(** Modelled from the spec: "Once the scope is cancelled, the Manager
    waits for all services' run calls to return, in any order, then
    writes the aggregate outcome to stoppedOut and returns" (missing
    [Run]). *)
Definition finish (s : Session) : Session :=
  if scopeCancelled s && forallb (fun u => negb (alive u)) (units s)
  then mkSession (units s) true (readyOut s)
                 (Some (aggregate (units s))) (Some (aggregate (units s)))
                 (stopOrder s)
  else s.

(** Modelled from the spec: "If a service's run returns an error before
    signalling readiness, that counts as a fatal startup failure: the
    Manager cancels the shared scope (stopping all other services, in
    reverse registration order ...) and returns that error without ever
    writing to readyOut" (missing [Run]). *)
Definition startupFailure (n e : string) (s : Session) : Session :=
  mkSession (units s) true (readyOut s) (stoppedOut s)
            (Some (Some (StartupFailure n e)))
            (reverseStopOrder (units s)).

(** Modelled from the spec: whether service [n] of the missing manager
    is live and has not signalled readiness. *)
Definition pendingReady (n : string) (us : list Unit) : bool :=
  existsb (fun u => String.eqb (uname u) n && alive u && negb (signalled u)) us.

(** Modelled from the spec: the start of the missing [Run]: every
    registered service is launched, in registration order, none is ready
    yet; with nothing registered, readiness holds at once. *)
Definition start {S : Type} `{Service S} (m : Manager S) : Session :=
  emitReady
    (mkSession (map (fun s => mkUnit (Name s) false None) (services m))
               false 0 None None []).

(** Modelled from the spec: one event of a session of the missing [Run].
    The services' records always follow the event; the manager reacts
    only while its [run] has not returned. *)
Definition step (s : Session) (ev : Event) : Session :=
  match ev with
  | SvcReady n =>
      let s1 := mkSession (map (markReady n) (units s)) (scopeCancelled s)
                          (readyOut s) (stoppedOut s) (returned s)
                          (stopOrder s) in
      match returned s with
      | Some _ => s1
      | None => emitReady s1
      end
  | SvcReturn n err =>
      let s1 := mkSession (map (markReturned n err) (units s))
                          (scopeCancelled s) (readyOut s) (stoppedOut s)
                          (returned s) (stopOrder s) in
      match returned s with
      | Some _ => s1
      | None =>
          match err with
          | Some e =>
              if pendingReady n (units s) then startupFailure n e s1
              else finish s1
          | None => finish s1
          end
      end
  | Cancel =>
      let s1 := mkSession (units s) true (readyOut s) (stoppedOut s)
                          (returned s) (stopOrder s) in
      match returned s with
      | Some _ => s1
      | None => finish s1
      end
  end.

(** Modelled from the spec: a session of the missing [Run] after a
    sequence of events. *)
Definition exec (s : Session) (evs : list Event) : Session :=
  fold_left step evs s.

End ServiceManager.

(** ** The run command *)

Module Run.

(** The two signals [signal.Notify] subscribes [sigTerm] to. *)
Inductive Signal : Type := Interrupt | SIGTERM.

(** Where the certificate watcher goroutine stands. *)
Inductive WatcherPC : Type :=
| WatcherSelect      (* blocked in its select *)
| WatcherExited.     (* returned *)

(** Where the goroutine running [m.Run] stands. *)
Inductive ManagerPC : Type :=
| ManagerSpawned     (* go func() started, nothing logged yet *)
| ManagerRunning     (* inside m.Run *)
| ManagerReturned.   (* m.Run returned and was logged *)

(** Where the main goroutine stands.  In the words of the specification:
    [WaitingForReady], [Ready], [ShuttingDown] and [Stopped]. *)
Inductive MainPC : Type :=
| WaitingForReady                 (* the first select *)
| Ready                           (* <-sigTerm, after the ready case *)
| ShuttingDown (timer : Z)        (* the second select; time.After fires at [timer] *)
| Stopped (err : option string).  (* RunMicroshift returned [err] *)

(** *** Log lines

    One constructor per klog call of [RunMicroshift]; [text] is the line
    it prints. *)

Inductive LogLine : Type :=
| LStarting                       (* klog.Infof("Starting MicroShift") *)
| LRotation                       (* watcher, case <-certCtx.Done() *)
| LWatcherExit                    (* watcher, case <-runCtx.Done() *)
| LManagerStarted (n : string)    (* klog.Infof("Started %s", m.Name()) *)
| LManagerFailed (n e : string)   (* klog.Errorf("Stopped %s: %v", m.Name(), err) *)
| LManagerCompleted (n : string)  (* klog.Infof("%s completed", m.Name()) *)
| LReady
| LNotifyError (e : string)       (* klog.Warningf *)
| LNotifySent
| LNotifyUnsupported
| LInterrupt                      (* both "Interrupt received" calls *)
| LStopping
| LTimedOut
| LStopped.

Definition text (l : LogLine) : string :=
  match l with
  | LStarting => "Starting MicroShift"
  | LRotation => "Stopping services for certificate rotation"
  | LWatcherExit => "Certificate watcher exiting"
  | LManagerStarted n => "Started " ++ n
  | LManagerFailed n e => "Stopped " ++ n ++ ": " ++ e
  | LManagerCompleted n => n ++ " completed"
  | LReady => "MicroShift is ready"
  | LNotifyError e => "error sending sd_notify readiness message: " ++ e
  | LNotifySent => "sent sd_notify readiness message"
  | LNotifyUnsupported => "service does not support sd_notify readiness messages"
  | LInterrupt => "Interrupt received"
  | LStopping => "Stopping services"
  | LTimedOut => "Timed out waiting for services to stop"
  | LStopped => "MicroShift stopped"
  end.

Record State : Type := mkState {
  now : Z;                      (* the clock *)
  NOTIFY_SOCKET : string;       (* the process environment variable; "" when unset *)
  notifySocket : string;        (* the local variable holding the stored value *)
  mName : string;               (* m.Name() *)
  certCtx : Context.t;
  runCtx : Context.t;
  ready : bool;                 (* the manager has written to [ready] *)
  stopped : bool;               (* the manager has written to [stopped] *)
  sigTerm : list Signal;        (* make(chan os.Signal, 1) *)
  watcher : WatcherPC;
  manager : ManagerPC;
  main : MainPC;
  sdNotifyCalls : nat;          (* calls of daemon.SdNotify so far *)
  log : list LogLine            (* klog lines, oldest first *)
}.

(** The state when the main goroutine reaches its first select: the
    socket variable stored and cleared, both contexts created from
    [context.Background()], both goroutines spawned, [sigTerm]
    connected. *)
Definition init (rotationDate : Z) (socket name : string) : State :=
  {| now := 0;
     NOTIFY_SOCKET := "";
     notifySocket := socket;
     mName := name;
     certCtx := Context.WithDeadline rotationDate;
     runCtx := Context.WithCancel;
     ready := false;
     stopped := false;
     sigTerm := [];
     watcher := WatcherSelect;
     manager := ManagerSpawned;
     main := WaitingForReady;
     sdNotifyCalls := 0;
     log := [LStarting] |}.

(** *** State updates *)

Definition logf (m : LogLine) (w : State) : State :=
  mkState (now w) (NOTIFY_SOCKET w) (notifySocket w) (mName w) (certCtx w)
          (runCtx w) (ready w) (stopped w) (sigTerm w) (watcher w)
          (manager w) (main w) (sdNotifyCalls w) (log w ++ [m]).

Definition setMain (pc : MainPC) (w : State) : State :=
  mkState (now w) (NOTIFY_SOCKET w) (notifySocket w) (mName w) (certCtx w)
          (runCtx w) (ready w) (stopped w) (sigTerm w) (watcher w)
          (manager w) pc (sdNotifyCalls w) (log w).

Definition setWatcher (pc : WatcherPC) (w : State) : State :=
  mkState (now w) (NOTIFY_SOCKET w) (notifySocket w) (mName w) (certCtx w)
          (runCtx w) (ready w) (stopped w) (sigTerm w) pc
          (manager w) (main w) (sdNotifyCalls w) (log w).

Definition setManager (pc : ManagerPC) (w : State) : State :=
  mkState (now w) (NOTIFY_SOCKET w) (notifySocket w) (mName w) (certCtx w)
          (runCtx w) (ready w) (stopped w) (sigTerm w) (watcher w)
          pc (main w) (sdNotifyCalls w) (log w).

Definition setSigTerm (q : list Signal) (w : State) : State :=
  mkState (now w) (NOTIFY_SOCKET w) (notifySocket w) (mName w) (certCtx w)
          (runCtx w) (ready w) (stopped w) q (watcher w)
          (manager w) (main w) (sdNotifyCalls w) (log w).

Definition setReady (w : State) : State :=
  mkState (now w) (NOTIFY_SOCKET w) (notifySocket w) (mName w) (certCtx w)
          (runCtx w) true (stopped w) (sigTerm w) (watcher w)
          (manager w) (main w) (sdNotifyCalls w) (log w).

Definition setStopped (w : State) : State :=
  mkState (now w) (NOTIFY_SOCKET w) (notifySocket w) (mName w) (certCtx w)
          (runCtx w) (ready w) true (sigTerm w) (watcher w)
          (manager w) (main w) (sdNotifyCalls w) (log w).

Definition advance (d : Z) (w : State) : State :=
  mkState (now w + d) (NOTIFY_SOCKET w) (notifySocket w) (mName w) (certCtx w)
          (runCtx w) (ready w) (stopped w) (sigTerm w) (watcher w)
          (manager w) (main w) (sdNotifyCalls w) (log w).

(** runCancel() *)
Definition runCancel (w : State) : State :=
  mkState (now w) (NOTIFY_SOCKET w) (notifySocket w) (mName w) (certCtx w)
          (Context.cancel (runCtx w)) (ready w) (stopped w) (sigTerm w)
          (watcher w) (manager w) (main w) (sdNotifyCalls w) (log w).

(** certCancel() *)
Definition certCancel (w : State) : State :=
  mkState (now w) (NOTIFY_SOCKET w) (notifySocket w) (mName w)
          (Context.cancel (certCtx w)) (runCtx w) (ready w) (stopped w)
          (sigTerm w) (watcher w) (manager w) (main w) (sdNotifyCalls w)
          (log w).

(** os.Setenv("NOTIFY_SOCKET", notifySocket) *)
Definition restoreSocket (w : State) : State :=
  mkState (now w) (notifySocket w) (notifySocket w) (mName w) (certCtx w)
          (runCtx w) (ready w) (stopped w) (sigTerm w) (watcher w)
          (manager w) (main w) (sdNotifyCalls w) (log w).

Definition countSdNotify (w : State) : State :=
  mkState (now w) (NOTIFY_SOCKET w) (notifySocket w) (mName w) (certCtx w)
          (runCtx w) (ready w) (stopped w) (sigTerm w) (watcher w)
          (manager w) (main w) (S (sdNotifyCalls w)) (log w).

(** *** daemon.SdNotify(false, daemon.SdNotifyReady)

    With no socket in the environment the call reports "not supported"
    and no error; otherwise it writes to the socket, and [io] is the
    error of that write, if any.  The result is the pair
    [(supported, err)]. *)
Definition SdNotify (socket : string) (io : option string)
  : bool * option string :=
  if String.eqb socket "" then (false, None)
  else match io with
       | Some e => (false, Some e)
       | None => (true, None)
       end.

(** *** Labels: who moves, and through which select case *)

Inductive WatcherCase : Type :=
| WCertDone          (* case <-certCtx.Done() *)
| WRunDone.          (* case <-runCtx.Done() *)

Inductive MainCase : Type :=
| CaseReady (io : option string)  (* first select, case <-ready *)
| CaseSigTerm                     (* first select, case <-sigTerm *)
| CaseRunDone                     (* first select, case <-runCtx.Done() *)
| RecvSigTerm                     (* <-sigTerm inside the ready case *)
| CaseStopped                     (* second select, case <-stopped *)
| CaseTimeout.                    (* second select, case <-time.After(...) *)

Inductive Label : Type :=
| Tick (d : N)                        (* the clock advances by d ns *)
| Deliver (s : Signal)                (* the OS delivers a subscribed signal *)
| ManagerStart                        (* the manager goroutine logs and enters m.Run *)
| ManagerReady                        (* m.Run writes to [ready] *)
| ManagerStopped                      (* m.Run writes to [stopped] *)
| ManagerReturn (err : option string) (* m.Run returns *)
| Watcher (c : WatcherCase)
| Main (c : MainCase).

(** *** The certificate watcher goroutine *)

Definition watcherStep (c : WatcherCase) (w : State) : option State :=
  match watcher w with
  | WatcherExited => None
  | WatcherSelect =>
      match c with
      | WCertDone =>
          if Context.Done (now w) (certCtx w)
          then Some (setWatcher WatcherExited (runCancel (logf LRotation w)))
          else None
      | WRunDone =>
          if Context.Done (now w) (runCtx w)
          then Some (setWatcher WatcherExited (certCancel (logf LWatcherExit w)))
          else None
      end
  end.

(** *** The main goroutine *)

(** The code after the first select, up to the second:
    klog.Info("Stopping services"); runCancel(); and the timer of the
    second select is armed. *)
Definition stopServices (w : State) : State :=
  let w1 := runCancel (logf LStopping w) in
  setMain (ShuttingDown (now w1 + gracePeriod)) w1.

(** The line the ready case logs for the result [(supported, err)] of
    [SdNotify]: a warning for an error, otherwise whether the message was
    sent. *)
Definition notifyLine (r : bool * option string) : LogLine :=
  match r with
  | (_, Some e) => LNotifyError e
  | (true, None) => LNotifySent
  | (false, None) => LNotifyUnsupported
  end.

(** The body of the ready case, up to the receive it blocks in. *)
Definition announce (io : option string) (w : State) : State :=
  let w1 := restoreSocket (logf LReady w) in
  let r := SdNotify (NOTIFY_SOCKET w1) io in
  setMain Ready (logf (notifyLine r) (countSdNotify w1)).

Definition mainStep (c : MainCase) (w : State) : option State :=
  match main w, c with
  | WaitingForReady, CaseReady io =>
      if ready w then Some (announce io w) else None
  | WaitingForReady, CaseSigTerm =>
      match sigTerm w with
      | _ :: q => Some (stopServices (logf LInterrupt (setSigTerm q w)))
      | [] => None
      end
  | WaitingForReady, CaseRunDone =>
      if Context.Done (now w) (runCtx w) then Some (stopServices w) else None
  | Ready, RecvSigTerm =>
      match sigTerm w with
      | _ :: q => Some (stopServices (logf LInterrupt (setSigTerm q w)))
      | [] => None
      end
  | ShuttingDown timer, CaseStopped =>
      if stopped w
      then Some (setMain (Stopped None) (logf LStopped w))
      else None
  | ShuttingDown timer, CaseTimeout =>
      if (timer <=? now w)%Z
      then Some (setMain (Stopped None) (logf LStopped (logf LTimedOut w)))
      else None
  | _, _ => None
  end.

(** *** The goroutine running the service manager *)

Definition managerStart (w : State) : option State :=
  match manager w with
  | ManagerSpawned =>
      Some (setManager ManagerRunning (logf (LManagerStarted (mName w)) w))
  | _ => None
  end.

Definition managerReturn (err : option string) (w : State) : option State :=
  match manager w with
  | ManagerRunning =>
      Some (setManager ManagerReturned
              (match err with
               | Some e => logf (LManagerFailed (mName w) e) w
               | None => logf (LManagerCompleted (mName w)) w
               end))
  | _ => None
  end.

(** *** Signal delivery: a send that never blocks; a signal that finds the
    one-slot buffer full is dropped. *)
Definition deliver (s : Signal) (w : State) : State :=
  if (List.length (sigTerm w) <? 1)%nat
  then setSigTerm (sigTerm w ++ [s]) w
  else w.

(** *** One step of the whole process *)

Definition step (w : State) (l : Label) : option State :=
  match l with
  | Tick d => Some (advance (Z.of_N d) w)
  | Deliver s => Some (deliver s w)
  | ManagerStart => managerStart w
  | ManagerReady => Some (setReady w)
  | ManagerStopped => Some (setStopped w)
  | ManagerReturn err => managerReturn err w
  | Watcher c => watcherStep c w
  | Main c => mainStep c w
  end.

(** A schedule is a list of labels; it runs as long as each step is
    enabled. *)
Fixpoint exec (w : State) (tr : list Label) : option State :=
  match tr with
  | [] => Some w
  | l :: tr' =>
      match step w l with
      | Some w' => exec w' tr'
      | None => None
      end
  end.

End Run.

(** ** Package [config]

    [RunMicroshift] starts with [cfg.ReadAndValidate]; the configuration
    comes from [NewMicroshiftConfig].  The file system, the environment,
    YAML decoding and the network and URL parsers are outside the package:
    they are the variables of the section below. *)

Module Config.

Definition defaultUserConfigFile : string := "~/.microshift/config.yaml".
Definition defaultUserDataDir : string := "~/.microshift/data".
Definition defaultGlobalConfigFile : string := "/etc/microshift/config.yaml".
Definition defaultGlobalDataDir : string := "/var/lib/microshift".
Definition defaultManifestDirEtc : string := "/etc/microshift/manifests".
Definition defaultManifestDirLib : string := "/usr/lib/microshift/manifests".

Record ClusterConfig : Type := mkCluster {
  URL : string;
  ClusterCIDR : string;
  ServiceCIDR : string;
  ServiceNodePortRange : string;
  DNS : string;
  Domain : string
}.

Record IngressConfig : Type := mkIngress {
  ServingCertificate : list Byte.byte;
  ServingKey : list Byte.byte
}.

Record MicroshiftConfig : Type := mkConfig {
  LogVLevel : Z;
  SubjectAltNames : list string;
  NodeName : string;
  NodeIP : string;
  Cluster : ClusterConfig;
  Ingress : IngressConfig
}.

(** *** Assignments to the fields the package writes *)

Definition setLogVLevel (v : Z) (c : MicroshiftConfig) : MicroshiftConfig :=
  mkConfig v (SubjectAltNames c) (NodeName c) (NodeIP c) (Cluster c) (Ingress c).

Definition setSubjectAltNames (l : list string) (c : MicroshiftConfig)
  : MicroshiftConfig :=
  mkConfig (LogVLevel c) l (NodeName c) (NodeIP c) (Cluster c) (Ingress c).

Definition setNodeName (s : string) (c : MicroshiftConfig) : MicroshiftConfig :=
  mkConfig (LogVLevel c) (SubjectAltNames c) s (NodeIP c) (Cluster c) (Ingress c).

Definition setNodeIP (s : string) (c : MicroshiftConfig) : MicroshiftConfig :=
  mkConfig (LogVLevel c) (SubjectAltNames c) (NodeName c) s (Cluster c) (Ingress c).

Definition setCluster (k : ClusterConfig) (c : MicroshiftConfig)
  : MicroshiftConfig :=
  mkConfig (LogVLevel c) (SubjectAltNames c) (NodeName c) (NodeIP c) k (Ingress c).

Definition setURL (s : string) (c : MicroshiftConfig) : MicroshiftConfig :=
  let k := Cluster c in
  setCluster (mkCluster s (ClusterCIDR k) (ServiceCIDR k)
                        (ServiceNodePortRange k) (DNS k) (Domain k)) c.

Definition setClusterCIDR (s : string) (c : MicroshiftConfig) : MicroshiftConfig :=
  let k := Cluster c in
  setCluster (mkCluster (URL k) s (ServiceCIDR k)
                        (ServiceNodePortRange k) (DNS k) (Domain k)) c.

Definition setServiceCIDR (s : string) (c : MicroshiftConfig) : MicroshiftConfig :=
  let k := Cluster c in
  setCluster (mkCluster (URL k) (ClusterCIDR k) s
                        (ServiceNodePortRange k) (DNS k) (Domain k)) c.

Definition setServiceNodePortRange (s : string) (c : MicroshiftConfig)
  : MicroshiftConfig :=
  let k := Cluster c in
  setCluster (mkCluster (URL k) (ClusterCIDR k) (ServiceCIDR k)
                        s (DNS k) (Domain k)) c.

Definition setDNS (s : string) (c : MicroshiftConfig) : MicroshiftConfig :=
  let k := Cluster c in
  setCluster (mkCluster (URL k) (ClusterCIDR k) (ServiceCIDR k)
                        (ServiceNodePortRange k) s (Domain k)) c.

Definition setDomain (s : string) (c : MicroshiftConfig) : MicroshiftConfig :=
  let k := Cluster c in
  setCluster (mkCluster (URL k) (ClusterCIDR k) (ServiceCIDR k)
                        (ServiceNodePortRange k) (DNS k) s) c.

(** *** Membership helpers *)

(** func StringInList(s string, list []string) bool *)
Fixpoint StringInList (s : string) (list : list string) : bool :=
  match list with
  | [] => false
  | x :: rest => if String.eqb x s then true else StringInList s rest
  end.

(** The inner loop of [stringSliceContains]: [value] against each
    element. *)
Fixpoint matchesAny (value : string) (elements : list string) : bool :=
  match elements with
  | [] => false
  | element :: rest =>
      if String.eqb value element then true else matchesAny value rest
  end.

(** func stringSliceContains(list []string, elements ...string) bool *)
Fixpoint stringSliceContains (list elements : list string) : bool :=
  match list with
  | [] => false
  | value :: rest =>
      if matchesAny value elements then true
      else stringSliceContains rest elements
  end.

(** *** [os.Stat], as the package looks at its error *)

Inductive StatErr : Type :=
| StatNil                      (* the file is there *)
| StatNotExist                 (* an error that is os.ErrNotExist *)
| StatOther (e : string).      (* any other error, permission denied say *)

(** errors.Is(err, os.ErrNotExist), and os.IsNotExist(err) *)
Definition IsNotExist (e : StatErr) : bool :=
  match e with
  | StatNotExist => true
  | _ => false
  end.

(** func findConfigFile() string.  [Expand] is [homedir.Expand] without
    its error, which the code drops. *)
Definition findConfigFile (Expand : string -> string)
                          (Stat : string -> StatErr) : string :=
  let userConfigFile := Expand defaultUserConfigFile in
  if IsNotExist (Stat userConfigFile) then
    if IsNotExist (Stat defaultGlobalConfigFile) then ""
    else defaultGlobalConfigFile
  else userConfigFile.

(** func findDataDir() string *)
Definition findDataDir (Expand : string -> string)
                       (Stat : string -> StatErr) (Geteuid : Z) : string :=
  let userDataDir := Expand defaultUserDataDir in
  if IsNotExist (Stat userDataDir) then
    if (0 <? Geteuid)%Z then userDataDir else defaultGlobalDataDir
  else userDataDir.

(** func findManifestsDir() []string *)
Definition findManifestsDir : list string :=
  [defaultManifestDirLib; defaultManifestDirEtc].

(** *** [pflag.FlagSet], as [ReadFromCmdLine] reads it *)

(** A flag's value: a string flag, a string-slice flag, or a flag of
    another type (the count flag [v], say) of which only the type name and
    the text of [Value.String()] matter here. *)
Inductive FlagValue : Type :=
| StringValue (s : string)
| StringSliceValue (l : list string)
| OtherValue (typ text : string).

Record Flag : Type := mkFlag { Value : FlagValue; FlagChanged : bool }.

(** A flag set: [Lookup] by name. *)
Definition FlagSet : Type := string -> option Flag.

(** flags.Changed(name): false for a flag that is not defined. *)
Definition Changed (flags : FlagSet) (name : string) : bool :=
  match flags name with
  | Some f => FlagChanged f
  | None => false
  end.

(** flags.GetString(name): an error ([None]) for a flag that is not
    defined or is not a string flag. *)
Definition GetString (flags : FlagSet) (name : string) : option string :=
  match flags name with
  | Some f => match Value f with
              | StringValue s => Some s
              | _ => None
              end
  | None => None
  end.

(** flags.GetStringSlice(name) *)
Definition GetStringSlice (flags : FlagSet) (name : string)
  : option (list string) :=
  match flags name with
  | Some f => match Value f with
              | StringSliceValue l => Some l
              | _ => None
              end
  | None => None
  end.

(** One [if s, err := flags.GetString(name); err == nil &&
    flags.Changed(name) { field = s }]. *)
Definition fromStringFlag (flags : FlagSet) (name : string)
    (set : string -> MicroshiftConfig -> MicroshiftConfig)
    (c : MicroshiftConfig) : MicroshiftConfig :=
  match GetString flags name with
  | Some s => if Changed flags name then set s c else c
  | None => c
  end.

(** *** The package's errors and fatal messages *)

Inductive Error : Type :=
| ErrReadingConfigFile (file err : string)   (* "reading config file %q: %v" *)
| ErrDecodingConfigFile (file err : string)  (* "decoding config file %q: %v" *)
| ErrEnv (err : string)                      (* envconfig's error, as it is *)
| ErrInvalidServiceCIDR (cidr err : string)  (* "invalid service cidr %v: %v" *)
| ErrTooFewHosts (cidr err : string).        (* "service cidr must have at least 10 distinct host addresses %v: %v" *)

Inductive FatalMsg : Type :=
| FatalDNS (e : Error)              (* "failed to get DNS IP: %v" *)
| FatalLocalSAN                     (* "subjectAltNames must not contain localhost, 127.0.0.1 or node IP" *)
| FatalApiserverIP (err : string)   (* "error getting apiserver IP: %v" *)
| FatalApiserverSAN                 (* "subjectAltNames must not contain apiserver kubernetes service names or IPs" *)
| FatalURL (err : string)           (* "failed to parse cluster URL: %v" *)
| FatalHost.                        (* "Cluster URL is using a host not included in subjectAltNames or nodeName" *)

(** How a call of [ReadAndValidate] ends: it returns (the configuration as
    it then is, and the error), [klog.Fatal] ends the process, or the nil
    [*svcNet] is dereferenced. *)
Inductive Outcome : Type :=
| Return (c : MicroshiftConfig) (err : option Error)
| Fatal (c : MicroshiftConfig) (msg : FatalMsg)
| NilDereference.

(** The names of the apiserver service that must not be subject
    alternative names. *)
Definition apiserverNames : list string :=
  ["kubernetes"; "kubernetes.default"; "kubernetes.default.svc";
   "kubernetes.default.svc.cluster.local";
   "openshift"; "openshift.default"; "openshift.default.svc";
   "openshift.default.svc.cluster.local"].

Section Environment.

(** [net.IPNet], and the functions of other packages the code calls. *)
Variable IPNet : Type.
Variable ParseCIDR : string -> IPNet + string.          (* net.ParseCIDR: the network or the error *)
Variable cidrHost : IPNet -> Z -> string + string.      (* cidr.Host(...).String() or the error *)
Variable ServiceIPRange : IPNet -> string + string.     (* the apiserver service IP's String() or the error *)
Variable urlParseHost : string -> string + string.      (* url.Parse(...).Host or the error *)
Variable ReadFile : string -> list Byte.byte + string.  (* os.ReadFile *)
Variable yamlUnmarshal :
  list Byte.byte -> MicroshiftConfig -> MicroshiftConfig * option string.
Variable envconfigProcess :
  MicroshiftConfig -> MicroshiftConfig * option string. (* envconfig.Process("microshift", c) *)
Variable Atoi : string -> Z.                            (* strconv.Atoi, its error dropped *)
Variable ValueString : FlagValue -> string.             (* f.Value.String() *)

(** func (c *MicroshiftConfig) ReadFromConfigFile(configFile string) error *)
Definition ReadFromConfigFile (c : MicroshiftConfig) (configFile : string)
  : MicroshiftConfig * option Error :=
  match ReadFile configFile with
  | inr err => (c, Some (ErrReadingConfigFile configFile err))
  | inl contents =>
      match yamlUnmarshal contents c with
      | (c', Some err) => (c', Some (ErrDecodingConfigFile configFile err))
      | (c', None) => (c', None)
      end
  end.

(** func (c *MicroshiftConfig) ReadFromEnv() error *)
Definition ReadFromEnv (c : MicroshiftConfig)
  : MicroshiftConfig * option Error :=
  match envconfigProcess c with
  | (c', Some err) => (c', Some (ErrEnv err))
  | (c', None) => (c', None)
  end.

(** func (c *MicroshiftConfig) ReadFromCmdLine(flags *pflag.FlagSet) error *)
Definition ReadFromCmdLine (c : MicroshiftConfig) (flags : FlagSet)
  : MicroshiftConfig * option Error :=
  let c1 :=
    match flags "v" with
    | Some f => if Changed flags "v"
                then setLogVLevel (Atoi (ValueString (Value f))) c
                else c
    | None => c
    end in
  let c2 :=
    match GetStringSlice flags "subject-alt-names" with
    | Some s => if Changed flags "subject-alt-names"
                then setSubjectAltNames s c1 else c1
    | None => c1
    end in
  let c3 := fromStringFlag flags "node-name" setNodeName c2 in
  let c4 := fromStringFlag flags "node-ip" setNodeIP c3 in
  let c5 := fromStringFlag flags "url" setURL c4 in
  let c6 := fromStringFlag flags "cluster-cidr" setClusterCIDR c5 in
  let c7 := fromStringFlag flags "service-cidr" setServiceCIDR c6 in
  let c8 := fromStringFlag flags "service-node-port-range"
                           setServiceNodePortRange c7 in
  let c9 := fromStringFlag flags "cluster-domain" setDomain c8 in
  (c9, None).

(** func getClusterDNS(serviceCIDR string) (string, error) *)
Definition getClusterDNS (serviceCIDR : string) : string + Error :=
  match ParseCIDR serviceCIDR with
  | inr err => inr (ErrInvalidServiceCIDR serviceCIDR err)
  | inl service =>
      match cidrHost service 10 with
      | inr err => inr (ErrTooFewHosts serviceCIDR err)
      | inl dnsClusterIP => inl dnsClusterIP
      end
  end.

(** The last check of [ReadAndValidate]: the cluster URL's host. *)
Definition validateURL (c : MicroshiftConfig) : Outcome :=
  match urlParseHost (URL (Cluster c)) with
  | inr err => Fatal c (FatalURL err)
  | inl host =>
      if negb (stringSliceContains (SubjectAltNames c) [host])
         || negb (String.eqb host (NodeName c))
      then Fatal c FatalHost
      else Return c None
  end.

(** The checks of [ReadAndValidate] on the subject alternative names,
    and then the URL check. *)
Definition validateSubjectAltNames (c : MicroshiftConfig) : Outcome :=
  if (0 <? List.length (SubjectAltNames c))%nat then
    if stringSliceContains (SubjectAltNames c)
                           ["localhost"; "127.0.0.1"; NodeIP c]
    then Fatal c FatalLocalSAN
    else
      match ParseCIDR (ServiceCIDR (Cluster c)) with
      | inr _ => NilDereference
      | inl svcNet =>
          match ServiceIPRange svcNet with
          | inr err => Fatal c (FatalApiserverIP err)
          | inl apiServerServiceIP =>
              if stringSliceContains (SubjectAltNames c)
                   (apiserverNames ++ [apiServerServiceIP])%list
              then Fatal c FatalApiserverSAN
              else validateURL c
          end
      end
  else validateURL c.

(** The part of [ReadAndValidate] after the three reads. *)
Definition validate (c : MicroshiftConfig) : Outcome :=
  match getClusterDNS (ServiceCIDR (Cluster c)) with
  | inr err => Fatal c (FatalDNS err)
  | inl clusterDNS => validateSubjectAltNames (setDNS clusterDNS c)
  end.

(** func (c *MicroshiftConfig) ReadAndValidate(configFile string,
    flags *pflag.FlagSet) error *)
Definition ReadAndValidate (c : MicroshiftConfig) (configFile : string)
                           (flags : FlagSet) : Outcome :=
  match (if String.eqb configFile "" then (c, None)
         else ReadFromConfigFile c configFile) with
  | (c1, Some err) => Return c1 (Some err)
  | (c1, None) =>
      match ReadFromEnv c1 with
      | (c2, Some err) => Return c2 (Some err)
      | (c2, None) =>
          match ReadFromCmdLine c2 flags with
          | (c3, Some err) => Return c3 (Some err)
          | (c3, None) => validate c3
          end
      end
  end.

End Environment.

(** *** [getAllHostnames]

    The Go string functions it uses, for the one-byte cutset and separator
    it passes ([" "]). *)

(** strings.TrimLeft(s, c) for a single byte [c]. *)
Fixpoint TrimLeft (c : ascii) (s : string) : string :=
  match s with
  | EmptyString => EmptyString
  | String a s' => if Ascii.eqb a c then TrimLeft c s' else s
  end.

(** strings.TrimRight(s, c) for a single byte [c]. *)
Fixpoint TrimRight (c : ascii) (s : string) : string :=
  match s with
  | EmptyString => EmptyString
  | String a s' =>
      match TrimRight c s' with
      | EmptyString => if Ascii.eqb a c then EmptyString else String a EmptyString
      | t => String a t
      end
  end.

(** strings.Trim(s, c) *)
Definition Trim (c : ascii) (s : string) : string := TrimRight c (TrimLeft c s).

(** strings.Split(s, sep) for a single-byte separator: the fields between
    the separators, one more than there are separators. *)
Fixpoint Split (sep : ascii) (s : string) : list string :=
  match s with
  | EmptyString => [EmptyString]
  | String a s' =>
      if Ascii.eqb a sep then EmptyString :: Split sep s'
      else match Split sep s' with
           | field :: rest => String a field :: rest
           | [] => [String a EmptyString]
           end
  end.

(** outString[:len(outString)-1]; slicing the empty string so panics. *)
Fixpoint dropLast (s : string) : option string :=
  match s with
  | EmptyString => None
  | String a EmptyString => Some EmptyString
  | String a s' => option_map (String a) (dropLast s')
  end.

(** A [sets.String] as the sorted list of its members, which is what
    [List()] returns.  Inserting a member that is there changes
    nothing. *)
Fixpoint Insert (x : string) (set : list string) : list string :=
  match set with
  | [] => [x]
  | y :: rest =>
      match String.compare x y with
      | Lt => x :: y :: rest
      | Eq => y :: rest
      | Gt => y :: Insert x rest
      end
  end.

(** sets.NewString(items...) *)
Definition NewString (items : list string) : list string :=
  fold_left (fun set x => Insert x set) items [].

(** How a call of [getAllHostnames] ends. *)
Inductive Hostnames : Type :=
| Names (names : list string)
| HostnameError (err : string)   (* "Error when executing 'hostname -A': %v" *)
| SlicePanic.                    (* slice bounds out of range *)

(** func getAllHostnames() ([]string, error), for what running
    [/bin/hostname -A] gave: its standard output and its error. *)
Definition getAllHostnames (out : string) (err : option string) : Hostnames :=
  match err with
  | Some e => HostnameError e
  | None =>
      match dropLast out with
      | None => SlicePanic
      | Some outString => Names (NewString (Split " " (Trim " " outString)))
      end
  end.

(** func NewMicroshiftConfig() *MicroshiftConfig, once the host name, the
    host IP and the host names have been obtained. *)
Definition NewMicroshiftConfig (nodeName nodeIP : string)
                               (subjectAltNames : list string)
  : MicroshiftConfig :=
  mkConfig 0 subjectAltNames nodeName nodeIP
           (mkCluster "https://127.0.0.1:6443" "10.42.0.0/16" "10.43.0.0/16"
                      "30000-32767" "" "cluster.local")
           (mkIngress [] []).

End Config.

(** * Invariants

    The predicates the proofs below carry along a session or a schedule. *)

Module SessionInv.

Import ServiceManager.

(** A service whose [run] returned without ever signalling readiness. *)
Definition deadUnsignalled (u : Unit) : bool :=
  negb (alive u) && negb (signalled u).

Definition dead (u : Unit) : bool := negb (alive u).

(** The session invariant: [readyOut] has been written once if all
    services have signalled and not at all otherwise; and a manager that
    has returned has cancelled the scope, and either returned a startup
    failure of a service that never signalled, or saw every service
    return. *)
Record Inv (s : Session) : Prop := mkInv {
  inv_ready :
    readyOut s = if forallb signalled (units s) then 1 else 0;
  inv_returned :
    forall r, returned s = Some r ->
      scopeCancelled s = true /\
      (((exists n e, r = Some (StartupFailure n e)) /\
        existsb deadUnsignalled (units s) = true)
       \/ forallb dead (units s) = true)
}.

(** Service [n] has not signalled: every record under that name is
    unsignalled. *)
Definition unsignalled (n : string) (us : list Unit) : Prop :=
  forall u, In u us -> uname u = n -> signalled u = false.

End SessionInv.

Module RunInv.

Import Run.

(** The main goroutine is past "Stopping services": it has called
    [runCancel] itself. *)
Definition shutdownBegun (pc : MainPC) : bool :=
  match pc with
  | ShuttingDown _ | Stopped _ => true
  | WaitingForReady | Ready => false
  end.

Definition hasStopped (pc : MainPC) : bool :=
  match pc with
  | Stopped _ => true
  | _ => false
  end.

Definition exited (pc : WatcherPC) : bool :=
  match pc with
  | WatcherExited => true
  | WatcherSelect => false
  end.

Definition isStopping (l : LogLine) : bool :=
  match l with LStopping => true | _ => false end.

Definition isInterrupt (l : LogLine) : bool :=
  match l with LInterrupt => true | _ => false end.

Definition isRotation (l : LogLine) : bool :=
  match l with LRotation => true | _ => false end.

Definition isReadyLine (l : LogLine) : bool :=
  match l with LReady => true | _ => false end.

Definition isTimedOut (l : LogLine) : bool :=
  match l with LTimedOut => true | _ => false end.

Definition isStoppedLine (l : LogLine) : bool :=
  match l with LStopped => true | _ => false end.

(** The log lines that name why the process is stopping: the watcher's
    rotation message and the main goroutine's "Interrupt received". *)
Definition isReason (l : LogLine) : bool := isInterrupt l || isRotation l.

(** The shutdown reasons a state's log records, oldest first. *)
Definition reasons (w : State) : list LogLine := filter isReason (log w).

(** How often a kind of line was logged. *)
Definition logged (p : LogLine -> bool) (w : State) : nat :=
  List.length (filter p (log w)).

Definition b2n (b : bool) : nat := if b then 1 else 0.

(** The steps of a schedule in which the main goroutine takes the ready
    case, that is, enters [Ready]. *)
Definition entersReady (l : Label) : bool :=
  match l with
  | Main (CaseReady _) => true
  | _ => false
  end.

Definition announcements (tr : list Label) : nat :=
  List.length (filter entersReady tr).

(** The steps of the two goroutines of [RunMicroshift] that react to
    events: the watcher and the main goroutine. *)
Definition internal (l : Label) : bool :=
  match l with
  | Watcher _ | Main _ => true
  | _ => false
  end.

(** What holds in every state a schedule reaches from [init rd sock name]. *)
Record Inv (rd : Z) (sock : string) (w : State) : Prop := mkInv {
  inv_now : (0 <= now w)%Z;
  inv_cert_deadline : Context.deadline (certCtx w) = Some rd;
  inv_run_deadline : Context.deadline (runCtx w) = None;
  inv_socket : notifySocket w = sock;
  inv_watcher_exited :
    watcher w = WatcherExited ->
    Context.cancelled (runCtx w) = true /\
    Context.Done (now w) (certCtx w) = true;
  inv_cert_cancelled :
    Context.cancelled (certCtx w) = true -> watcher w = WatcherExited;
  inv_run_cancelled :
    Context.cancelled (runCtx w) = true ->
    watcher w = WatcherExited \/ shutdownBegun (main w) = true;
  inv_main_cancelled :
    shutdownBegun (main w) = true -> Context.cancelled (runCtx w) = true;
  inv_waiting :
    main w = WaitingForReady -> NOTIFY_SOCKET w = "" /\ sdNotifyCalls w = 0;
  inv_ready :
    main w = Ready -> NOTIFY_SOCKET w = sock /\ sdNotifyCalls w = 1;
  inv_calls : sdNotifyCalls w <= 1;
  inv_socket_after :
    sdNotifyCalls w = 0 -> NOTIFY_SOCKET w = "";
  inv_result : forall r, main w = Stopped r -> r = None;
  inv_log_ready : logged isReadyLine w = sdNotifyCalls w;
  inv_log_stopping : logged isStopping w = b2n (shutdownBegun (main w));
  inv_log_interrupt : logged isInterrupt w <= b2n (shutdownBegun (main w));
  inv_log_rotation : logged isRotation w <= b2n (exited (watcher w));
  inv_log_stopped : logged isStoppedLine w = b2n (hasStopped (main w));
  inv_log_timedout : logged isTimedOut w <= b2n (hasStopped (main w))
}.

End RunInv.

Module ConfigInv.

Import Config.

(** What a changed, well-typed flag asks for: the new value of the field,
    if any. *)
Definition pick {A : Type} (o : option A) (old : A) : A :=
  match o with
  | Some v => v
  | None => old
  end.

(** The value the string flag [name] overrides its field with. *)
Definition stringOverride (flags : FlagSet) (name : string) : option string :=
  match GetString flags name with
  | Some s => if Changed flags name then Some s else None
  | None => None
  end.

(** The value the flag [subject-alt-names] overrides its field with. *)
Definition sliceOverride (flags : FlagSet) (name : string)
  : option (list string) :=
  match GetStringSlice flags name with
  | Some l => if Changed flags name then Some l else None
  | None => None
  end.

(** The value the flag [v] overrides the log level with. *)
Definition levelOverride (Atoi : string -> Z)
    (ValueString : FlagValue -> string) (flags : FlagSet) : option Z :=
  match flags "v" with
  | Some f => if Changed flags "v"
              then Some (Atoi (ValueString (Value f))) else None
  | None => None
  end.

(** The errors [ReadAndValidate] can return come from reading the file or
    the environment. *)
Definition isReadError (e : Error) : bool :=
  match e with
  | ErrReadingConfigFile _ _ | ErrDecodingConfigFile _ _ | ErrEnv _ => true
  | ErrInvalidServiceCIDR _ _ | ErrTooFewHosts _ _ => false
  end.

(** A sample environment for the default service network 10.43.0.0/16:
    its tenth address, the apiserver's service address, and the host of
    one cluster URL. *)
Definition sampleParseCIDR (s : string) : string + string :=
  if String.eqb s "10.43.0.0/16" then inl s else inr "invalid CIDR address".

Definition sampleHost (net : string) (n : Z) : string + string :=
  if (n =? 10)%Z then inl "10.43.0.10" else inr "unexpected host number".

Definition sampleServiceIP (net : string) : string + string :=
  inl "10.43.0.1".

Definition sampleURLHost (u : string) : string + string :=
  if String.eqb u "https://edge-1" then inl "edge-1"
  else if String.eqb u "https://127.0.0.1:6443" then inl "127.0.0.1:6443"
  else inr "unexpected URL".

(** A command line that sets the URL, the node name and the subject
    alternative names. *)
Definition sampleFlags : FlagSet :=
  fun name =>
    if String.eqb name "url"
    then Some (mkFlag (StringValue "https://edge-1") true)
    else if String.eqb name "node-name"
    then Some (mkFlag (StringValue "edge-1") true)
    else if String.eqb name "subject-alt-names"
    then Some (mkFlag (StringSliceValue ["edge-1"]) true)
    else None.

(** [ReadAndValidate] in the sample environment, with no configuration
    file and an environment that sets nothing. *)
Definition sampleReadAndValidate (c : MicroshiftConfig) (flags : FlagSet)
  : Outcome :=
  ReadAndValidate sampleParseCIDR sampleHost sampleServiceIP sampleURLHost
                  (fun _ => inr "no such file")
                  (fun _ c0 => (c0, None))
                  (fun c0 => (c0, None))
                  (fun _ => 0%Z) (fun _ => "")
                  c "" flags.

(** Whether the byte [c] occurs in [s]. *)
Fixpoint hasByte (c : ascii) (s : string) : bool :=
  match s with
  | EmptyString => false
  | String a s' => Ascii.eqb a c || hasByte c s'
  end.

(** A host name as [hostname -A] prints one: not empty, no space in it. *)
Definition isName (n : string) : Prop := n <> "" /\ hasByte " " n = false.

(** What [hostname -A] prints for a list of names: each name followed by a
    space, then a newline. *)
Fixpoint hostnameLine (names : list string) : string :=
  match names with
  | [] => String "010" EmptyString
  | n :: rest => n ++ String " " (hostnameLine rest)
  end.

(** The names, each followed by a space. *)
Fixpoint spaced (names : list string) : string :=
  match names with
  | [] => EmptyString
  | n :: rest => n ++ String " " (spaced rest)
  end.

(** The names separated by single spaces. *)
Fixpoint joinSpaces (names : list string) : string :=
  match names with
  | [] => EmptyString
  | [n] => n
  | n :: rest => n ++ String " " (joinSpaces rest)
  end.

End ConfigInv.

Module RunLog.

Import Run.

(** The steps that need neither the service manager nor the watcher: the
    clock, signal delivery and the main goroutine. *)
Definition needsNoOthers (l : Label) : bool :=
  match l with
  | Tick _ | Deliver _ | Main _ => true
  | ManagerStart | ManagerReady | ManagerStopped | ManagerReturn _
  | Watcher _ => false
  end.

(** Where the main goroutine is, as its log lines tell. *)
Inductive Phase : Type :=
| PStart          (* nothing logged yet *)
| PWaiting        (* "Starting MicroShift" logged *)
| PAnnouncing     (* "MicroShift is ready" logged, sd_notify result not yet *)
| PReady
| PInterrupted    (* "Interrupt received" logged *)
| PStopping       (* "Stopping services" logged *)
| PTimedOut
| PStopped.

(** The phase after one more log line; [None] when the main goroutine
    cannot log that line in that phase.  Lines of the watcher and of the
    manager's goroutine leave the phase alone. *)
Definition nextPhase (p : Phase) (l : LogLine) : option Phase :=
  match l with
  | LRotation | LWatcherExit
  | LManagerStarted _ | LManagerFailed _ _ | LManagerCompleted _ => Some p
  | LStarting => match p with PStart => Some PWaiting | _ => None end
  | LReady => match p with PWaiting => Some PAnnouncing | _ => None end
  | LNotifyError _ | LNotifySent | LNotifyUnsupported =>
      match p with PAnnouncing => Some PReady | _ => None end
  | LInterrupt =>
      match p with PWaiting | PReady => Some PInterrupted | _ => None end
  | LStopping =>
      match p with PWaiting | PInterrupted => Some PStopping | _ => None end
  | LTimedOut => match p with PStopping => Some PTimedOut | _ => None end
  | LStopped =>
      match p with PStopping | PTimedOut => Some PStopped | _ => None end
  end.

(** Reading a log from phase [p]. *)
Fixpoint readLog (p : Phase) (lines : list LogLine) : option Phase :=
  match lines with
  | [] => Some p
  | l :: rest =>
      match nextPhase p l with
      | Some q => readLog q rest
      | None => None
      end
  end.

Definition phaseOf (pc : MainPC) : Phase :=
  match pc with
  | WaitingForReady => PWaiting
  | Ready => PReady
  | ShuttingDown _ => PStopping
  | Stopped _ => PStopped
  end.

Definition isWatcherExit (l : LogLine) : bool :=
  match l with LWatcherExit => true | _ => false end.

(** The "Started" line of the manager's goroutine, for the name [n]. *)
Definition isManagerStarted (n : string) (l : LogLine) : bool :=
  match l with
  | LManagerStarted m => String.eqb m n
  | _ => false
  end.

(** The line the manager's goroutine logs when [m.Run] has returned, for
    the name [n]: "Stopped ..." with the error, or "... completed". *)
Definition isManagerResult (n : string) (l : LogLine) : bool :=
  match l with
  | LManagerFailed m _ | LManagerCompleted m => String.eqb m n
  | _ => false
  end.

(** Any line of the manager's goroutine, whatever the name. *)
Definition isManagerLine (l : LogLine) : bool :=
  match l with
  | LManagerStarted _ | LManagerFailed _ _ | LManagerCompleted _ => true
  | _ => false
  end.

Definition started (pc : ManagerPC) : bool :=
  match pc with
  | ManagerSpawned => false
  | ManagerRunning | ManagerReturned => true
  end.

Definition returned (pc : ManagerPC) : bool :=
  match pc with
  | ManagerReturned => true
  | ManagerSpawned | ManagerRunning => false
  end.

End RunLog.
(** * Properties *)

(** ** Registration *)

Section RegistrationFacts.

Import ServiceManager.

Context {S : Type} `{Service S}.

Lemma registered_In (m : Manager S) (n : string) :
  registered m n = true <-> In n (map Name (services m)).
Proof.
  unfold registered. rewrite existsb_exists, in_map_iff.
  split; intros [s [H1 H2]]; exists s.
  - apply String.eqb_eq in H2. auto.
  - split; [assumption | apply String.eqb_eq; assumption].
Qed.

Lemma registered_false (m : Manager S) (n : string) :
  registered m n = false <-> ~ In n (map Name (services m)).
Proof.
  rewrite <- registered_In. destruct (registered m n); split; congruence.
Qed.

(** Registering a list whose names are new and pairwise distinct never
    meets a duplicate; on a manager that is not running it registers
    them all, in order. *)
Lemma MustAddAll_distinct (l : list S) :
  forall m : Manager S,
    NoDup (map Name (services m ++ l)) ->
    (forall n, MustAddAll m l <> inr (DuplicateName n)) /\
    (running m = false ->
     MustAddAll m l = inl (mkManager (services m ++ l) false)).
Proof.
  induction l as [|s l IH]; intros m ND.
  - split; [discriminate|]. intros R. cbn. rewrite app_nil_r.
    destruct m; cbn in *; subst; reflexivity.
  - cbn [MustAddAll]. unfold AddService.
    assert (Hs : registered m (Name s) = false).
    { apply registered_false. intros Hin.
      rewrite map_app in ND. cbn in ND.
      apply NoDup_remove_2 in ND. apply ND, in_or_app. now left. }
    rewrite Hs. destruct (running m) eqn:R.
    + split; [discriminate | discriminate].
    + specialize (IH (mkManager (services m ++ [s]) false)).
      cbn [services running] in IH. rewrite <- app_assoc in IH. cbn in IH.
      destruct (IH ND) as [IH1 IH2]. split; [exact IH1|].
      intros _. apply IH2. reflexivity.
Qed.

End RegistrationFacts.

(** C8.  [AddService] (the spec's [register]) fails with [DuplicateName]
    exactly when a service of the same name is already registered; the
    error then carries that name and the registry is unchanged; and
    registering services whose names are new and pairwise distinct never
    fails with [DuplicateName] (on a fresh manager every one of them is
    registered, in order). *)
Theorem AddService_DuplicateName_iff :
  forall (S : Type) (SS : ServiceManager.Service S)
         (m : ServiceManager.Manager S) (s : S),
    ((exists n, snd (ServiceManager.AddService m s)
                = Some (ServiceManager.DuplicateName n))
     <-> In (ServiceManager.Name s)
            (map ServiceManager.Name (ServiceManager.services m)))
    /\ (forall n, snd (ServiceManager.AddService m s)
                  = Some (ServiceManager.DuplicateName n) ->
                  n = ServiceManager.Name s
                  /\ fst (ServiceManager.AddService m s) = m)
    /\ (forall l,
          NoDup (map ServiceManager.Name (ServiceManager.services m ++ l)) ->
          forall n, ServiceManager.MustAddAll m l
                    <> inr (ServiceManager.DuplicateName n))
    /\ (forall l,
          NoDup (map ServiceManager.Name l) ->
          ServiceManager.MustAddAll ServiceManager.NewServiceManager l
          = inl (ServiceManager.mkManager l false)).
Proof.
  intros S SS m s. unfold ServiceManager.AddService.
  destruct (ServiceManager.registered m (ServiceManager.Name s)) eqn:R.
  - apply registered_In in R. cbn [fst snd].
    repeat split.
    + intros _. exact R.
    + intros _. eexists. reflexivity.
    + congruence.
    + intros l ND. apply (MustAddAll_distinct l m ND).
    + intros l ND.
      apply (MustAddAll_distinct l ServiceManager.NewServiceManager ND).
      reflexivity.
  - apply registered_false in R.
    repeat split.
    + intros [n Hn]. destruct (ServiceManager.running m); discriminate.
    + intros Hin. contradiction.
    + destruct (ServiceManager.running m); discriminate.
    + destruct (ServiceManager.running m); discriminate.
    + intros l ND. apply (MustAddAll_distinct l m ND).
    + intros l ND.
      apply (MustAddAll_distinct l ServiceManager.NewServiceManager ND).
      reflexivity.
Qed.

(** The theorem at a concrete registry: registering "etcd" a second time
    fails and leaves the registry alone, and three distinct names all
    register. *)
Lemma AddService_DuplicateName_iff_witness :
  (snd (ServiceManager.AddService
          (ServiceManager.mkManager ["etcd"; "kubelet"] false) "etcd")
   = Some (ServiceManager.DuplicateName "etcd")
   /\ fst (ServiceManager.AddService
             (ServiceManager.mkManager ["etcd"; "kubelet"] false) "etcd")
      = ServiceManager.mkManager ["etcd"; "kubelet"] false)
  /\ ServiceManager.MustAddAll ServiceManager.NewServiceManager
       ["etcd"; "kube-apiserver"; "kubelet"]
     = inl (ServiceManager.mkManager ["etcd"; "kube-apiserver"; "kubelet"] false).
Proof.
  pose proof (@AddService_DuplicateName_iff string _
                (ServiceManager.mkManager ["etcd"; "kubelet"] false) "etcd")
    as [_ [Hdup [_ Hall]]].
  split.
  - split; [reflexivity|]. apply (Hdup "etcd"). reflexivity.
  - apply Hall. cbn.
    repeat constructor; cbn; intuition discriminate.
Defined.

(** ** Run sessions of the service manager *)

Module SessionFacts.

Import ServiceManager SessionInv.

Lemma markReady_uname n u : uname (markReady n u) = uname u.
Proof. unfold markReady. destruct (_ && _); reflexivity. Qed.

Lemma markReturned_uname n e u : uname (markReturned n e u) = uname u.
Proof. unfold markReturned. destruct (_ && _); reflexivity. Qed.

Lemma markReturned_signalled n e u :
  signalled (markReturned n e u) = signalled u.
Proof. unfold markReturned. destruct (_ && _); reflexivity. Qed.

Lemma markReady_alive n u : alive (markReady n u) = alive u.
Proof. unfold markReady. destruct (_ && _); reflexivity. Qed.

Lemma markReady_dead n u : alive u = false -> markReady n u = u.
Proof. unfold markReady. intros ->. rewrite andb_false_r. reflexivity. Qed.

Lemma markReturned_dead n e u : alive u = false -> markReturned n e u = u.
Proof. unfold markReturned. intros ->. rewrite andb_false_r. reflexivity. Qed.

Lemma markReady_mono n u : signalled u = true -> signalled (markReady n u) = true.
Proof. unfold markReady. destruct (_ && _); auto. Qed.

Lemma forallb_map {A B} (f : A -> B) (p : B -> bool) (l : list A) :
  forallb p (map f l) = forallb (fun x => p (f x)) l.
Proof. induction l; cbn; congruence. Qed.

Lemma existsb_map {A B} (f : A -> B) (p : B -> bool) (l : list A) :
  existsb p (map f l) = existsb (fun x => p (f x)) l.
Proof. induction l; cbn; congruence. Qed.

Lemma forallb_ext_in {A} (p q : A -> bool) (l : list A) :
  (forall x, In x l -> p x = q x) -> forallb p l = forallb q l.
Proof.
  induction l as [|a l IH]; cbn; intros E; [reflexivity|].
  rewrite E by now left. rewrite IH; auto.
Qed.

Lemma forallb_impl {A} (p q : A -> bool) (l : list A) :
  (forall x, p x = true -> q x = true) ->
  forallb p l = true -> forallb q l = true.
Proof.
  intros E. rewrite !forallb_forall. auto.
Qed.

Lemma existsb_impl {A} (p q : A -> bool) (l : list A) :
  (forall x, p x = true -> q x = true) ->
  existsb p l = true -> existsb q l = true.
Proof.
  intros E. rewrite !existsb_exists. intros [x [? ?]]. eauto.
Qed.

(** A service that never signalled keeps the aggregate signal away. *)
Lemma deadUnsignalled_not_all us :
  existsb deadUnsignalled us = true -> forallb signalled us = false.
Proof.
  rewrite existsb_exists. intros [u [Hin Hu]].
  destruct (forallb signalled us) eqn:F; [|reflexivity].
  rewrite forallb_forall in F. specialize (F u Hin).
  unfold deadUnsignalled in Hu. rewrite F in Hu.
  rewrite andb_false_r in Hu. discriminate.
Qed.

Lemma all_dead_markReady n us :
  forallb dead us = true -> map (markReady n) us = us.
Proof.
  intros D. rewrite forallb_forall in D.
  rewrite <- (map_id us) at 2. apply map_ext_in. intros u Hin.
  apply markReady_dead. specialize (D u Hin). unfold dead in D.
  destruct (alive u); [discriminate | reflexivity].
Qed.

Lemma all_dead_markReturned n e us :
  forallb dead us = true -> map (markReturned n e) us = us.
Proof.
  intros D. rewrite forallb_forall in D.
  rewrite <- (map_id us) at 2. apply map_ext_in. intros u Hin.
  apply markReturned_dead. specialize (D u Hin). unfold dead in D.
  destruct (alive u); [discriminate | reflexivity].
Qed.

Lemma deadUnsignalled_alive u : deadUnsignalled u = true -> alive u = false.
Proof.
  unfold deadUnsignalled. destruct (alive u); [discriminate | reflexivity].
Qed.

Lemma deadUnsignalled_markReady n us :
  existsb deadUnsignalled us = true ->
  existsb deadUnsignalled (map (markReady n) us) = true.
Proof.
  rewrite existsb_map. apply existsb_impl. intros u Hu.
  rewrite markReady_dead; [exact Hu | now apply deadUnsignalled_alive].
Qed.

Lemma deadUnsignalled_markReturned n e us :
  existsb deadUnsignalled us = true ->
  existsb deadUnsignalled (map (markReturned n e) us) = true.
Proof.
  rewrite existsb_map. apply existsb_impl. intros u Hu.
  rewrite markReturned_dead; [exact Hu | now apply deadUnsignalled_alive].
Qed.

Lemma signalled_markReturned n e us :
  forallb signalled (map (markReturned n e) us) = forallb signalled us.
Proof.
  rewrite forallb_map. apply forallb_ext_in. intros u _.
  apply markReturned_signalled.
Qed.

Lemma signalled_markReady_mono n us :
  forallb signalled us = true ->
  forallb signalled (map (markReady n) us) = true.
Proof.
  rewrite forallb_map. apply forallb_impl. intros u. apply markReady_mono.
Qed.

(** The service that fails at startup is afterwards one that returned
    without signalling. *)
Lemma pendingReady_returned n e us :
  pendingReady n us = true ->
  existsb deadUnsignalled (map (markReturned n e) us) = true.
Proof.
  unfold pendingReady. rewrite existsb_map. apply existsb_impl.
  intros u Hu. apply andb_prop in Hu as [Hu Hs].
  unfold markReturned. rewrite Hu. unfold deadUnsignalled, alive. cbn.
  exact Hs.
Qed.

Lemma pendingReady_not_all_dead n us :
  pendingReady n us = true -> forallb dead us = false.
Proof.
  unfold pendingReady. rewrite existsb_exists. intros [u [Hin Hu]].
  destruct (forallb dead us) eqn:D; [|reflexivity].
  rewrite forallb_forall in D. specialize (D u Hin). unfold dead in D.
  apply andb_prop in Hu as [Hu _]. apply andb_prop in Hu as [_ Ha].
  rewrite Ha in D. discriminate.
Qed.

Lemma emitReady_units s : units (emitReady s) = units s.
Proof. unfold emitReady. destruct (_ && _); reflexivity. Qed.

Lemma emitReady_returned s : returned (emitReady s) = returned s.
Proof. unfold emitReady. destruct (_ && _); reflexivity. Qed.

Lemma emitReady_scope s : scopeCancelled (emitReady s) = scopeCancelled s.
Proof. unfold emitReady. destruct (_ && _); reflexivity. Qed.

Lemma finish_units s : units (finish s) = units s.
Proof. unfold finish. destruct (_ && _); reflexivity. Qed.

Lemma finish_readyOut s : readyOut (finish s) = readyOut s.
Proof. unfold finish. destruct (_ && _); reflexivity. Qed.

(** [emitReady] restores the readiness equation whenever [readyOut] was
    at most one and was one only if all had signalled. *)
Lemma emitReady_ready s :
  (readyOut s = 0 \/ (readyOut s = 1 /\ forallb signalled (units s) = true)) ->
  readyOut (emitReady s) = if forallb signalled (units s) then 1 else 0.
Proof.
  unfold emitReady. intros [R | [R F]].
  - rewrite R. destruct (forallb signalled (units s)); cbn; auto.
  - rewrite R, F. cbn. exact R.
Qed.

Lemma Inv_finish s :
  returned s = None -> Inv s -> Inv (finish s).
Proof.
  intros RN [I1 I2]. unfold finish.
  destruct (scopeCancelled s && forallb (fun u => negb (alive u)) (units s)) eqn:C.
  - apply andb_prop in C as [C1 C2]. split; cbn.
    + exact I1.
    + intros r _. split; [reflexivity|]. right. exact C2.
  - split; assumption.
Qed.

Lemma Inv_start {S : Type} `{Service S} (m : Manager S) : Inv (start m).
Proof.
  unfold start. split.
  - rewrite emitReady_ready; rewrite ?emitReady_units; cbn; auto.
  - rewrite emitReady_returned. cbn. discriminate.
Qed.

Lemma Inv_step s ev : Inv s -> Inv (step s ev).
Proof.
  intros I. pose proof I as [I1 I2].
  destruct ev as [n | n err | ]; cbn [step].
  - (* a readiness signal *)
    destruct (returned s) as [r|] eqn:R.
    + destruct (I2 r eq_refl) as [SC [[St DU] | AD]].
      * split; cbn.
        -- rewrite I1. rewrite (deadUnsignalled_not_all _ DU).
           rewrite (deadUnsignalled_not_all _ (deadUnsignalled_markReady n _ DU)).
           reflexivity.
        -- intros r' Hr. try rewrite R in Hr; injection Hr as <-.
           split; [exact SC|]. left. split; [exact St|].
           now apply deadUnsignalled_markReady.
      * split; cbn; rewrite (all_dead_markReady n _ AD).
        -- exact I1.
        -- intros r' Hr. try rewrite R in Hr; injection Hr as <-. auto.
    + split.
      * rewrite emitReady_ready; rewrite ?emitReady_units; cbn; [reflexivity|].
        rewrite I1. destruct (forallb signalled (units s)) eqn:F; [|now left].
        right. split; [reflexivity|]. now apply signalled_markReady_mono.
      * rewrite emitReady_returned. cbn. intros r Hr. congruence.
  - (* a service returns *)
    destruct (returned s) as [r|] eqn:R.
    + destruct (I2 r eq_refl) as [SC [[St DU] | AD]].
      * split; cbn.
        -- rewrite signalled_markReturned. exact I1.
        -- intros r' Hr. try rewrite R in Hr; injection Hr as <-.
           split; [exact SC|]. left. split; [exact St|].
           now apply deadUnsignalled_markReturned.
      * split; cbn; rewrite (all_dead_markReturned n err _ AD).
        -- exact I1.
        -- intros r' Hr. try rewrite R in Hr; injection Hr as <-. auto.
    + assert (I' : Inv (mkSession (map (markReturned n err) (units s))
                          (scopeCancelled s) (readyOut s) (stoppedOut s)
                          (returned s) (stopOrder s))).
      { split; cbn.
        - rewrite signalled_markReturned. exact I1.
        - intros r Hr. congruence. }
      destruct err as [e|].
      * destruct (pendingReady n (units s)) eqn:P.
        -- split; cbn.
           ++ rewrite signalled_markReturned. exact I1.
           ++ intros r Hr. injection Hr as <-. split; [reflexivity|].
              left. split; [eauto|]. now apply pendingReady_returned.
        -- apply Inv_finish; [reflexivity | rewrite R in I'; exact I'].
      * apply Inv_finish; [reflexivity | rewrite R in I'; exact I'].
  - (* the scope is cancelled *)
    destruct (returned s) as [r|] eqn:R.
    + split; cbn.
      * exact I1.
      * intros r' Hr. try rewrite R in Hr; injection Hr as <-.
        split; [reflexivity|]. apply (I2 r eq_refl).
    + apply Inv_finish; [reflexivity|]. split; cbn.
      * exact I1.
      * intros r Hr. congruence.
Qed.

Lemma Inv_exec evs : forall s, Inv s -> Inv (exec s evs).
Proof.
  unfold exec. induction evs as [|ev evs IH]; cbn; intros s I.
  - exact I.
  - apply IH, Inv_step, I.
Qed.

(** The registry is fixed for the session: no event adds, drops or
    reorders a service. *)
Lemma step_unames s ev : map uname (units (step s ev)) = map uname (units s).
Proof.
  destruct ev as [n | n err | ]; cbn [step].
  - destruct (returned s); rewrite ?emitReady_units; cbn;
      rewrite map_map; apply map_ext; intros; apply markReady_uname.
  - assert (E : map uname (map (markReturned n err) (units s))
                = map uname (units s)).
    { rewrite map_map; apply map_ext; intros; apply markReturned_uname. }
    destruct (returned s); [exact E|].
    destruct err as [e|]; [destruct (pendingReady n (units s))|];
      rewrite ?finish_units; exact E.
  - destruct (returned s); rewrite ?finish_units; reflexivity.
Qed.

Lemma exec_unames evs : forall s,
  map uname (units (exec s evs)) = map uname (units s).
Proof.
  unfold exec. induction evs as [|ev evs IH]; cbn; intros s; [reflexivity|].
  rewrite IH. apply step_unames.
Qed.

Lemma start_unames {S : Type} `{Service S} (m : Manager S) :
  map uname (units (start m)) = map Name (services m).
Proof.
  unfold start. rewrite emitReady_units. cbn. rewrite map_map. reflexivity.
Qed.

Lemma step_unsignalled n s ev :
  ev <> SvcReady n -> unsignalled n (units s) ->
  unsignalled n (units (step s ev)).
Proof.
  intros Hev U.
  assert (Ret : forall k err, unsignalled n (map (markReturned k err) (units s))).
  { intros k err u Hin Hn. apply in_map_iff in Hin as [u0 [<- Hin]].
    rewrite markReturned_uname in Hn. rewrite markReturned_signalled. auto. }
  destruct ev as [k | k err | ]; cbn [step].
  - assert (k <> n) by congruence.
    assert (Rdy : unsignalled n (map (markReady k) (units s))).
    { intros u Hin Hn. apply in_map_iff in Hin as [u0 [<- Hin]].
      rewrite markReady_uname in Hn. unfold markReady.
      destruct (String.eqb_spec (uname u0) k) as [E|E]; [congruence|].
      cbn. auto. }
    destruct (returned s); rewrite ?emitReady_units; exact Rdy.
  - destruct (returned s); [apply Ret|].
    destruct err as [e|]; [destruct (pendingReady k (units s))|];
      rewrite ?finish_units; apply Ret.
  - destruct (returned s); rewrite ?finish_units; exact U.
Qed.

Lemma exec_unsignalled n evs : forall s,
  ~ In (SvcReady n) evs -> unsignalled n (units s) ->
  unsignalled n (units (exec s evs)).
Proof.
  unfold exec. induction evs as [|ev evs IH]; cbn; intros s Hn U; [exact U|].
  apply IH; [tauto|]. apply step_unsignalled; [|exact U].
  intros ->. tauto.
Qed.

Lemma start_unsignalled {S : Type} `{Service S} (m : Manager S) n :
  unsignalled n (units (start m)).
Proof.
  unfold start. rewrite emitReady_units. cbn. intros u Hin _.
  apply in_map_iff in Hin as [s0 [<- _]]. reflexivity.
Qed.

(** Once a service has returned without signalling, it stays so. *)
Lemma step_deadUnsignalled s ev :
  existsb deadUnsignalled (units s) = true ->
  existsb deadUnsignalled (units (step s ev)) = true.
Proof.
  intros D. destruct ev as [n | n err | ]; cbn [step].
  - destruct (returned s); rewrite ?emitReady_units; cbn;
      now apply deadUnsignalled_markReady.
  - destruct (returned s); [now apply deadUnsignalled_markReturned|].
    destruct err as [e|]; [destruct (pendingReady n (units s))|];
      rewrite ?finish_units; cbn; now apply deadUnsignalled_markReturned.
  - destruct (returned s); rewrite ?finish_units; exact D.
Qed.

Lemma exec_deadUnsignalled evs : forall s,
  existsb deadUnsignalled (units s) = true ->
  existsb deadUnsignalled (units (exec s evs)) = true.
Proof.
  unfold exec. induction evs as [|ev evs IH]; cbn; intros s D; [exact D|].
  apply IH, step_deadUnsignalled, D.
Qed.

Lemma filter_length_lt {A} (p : A -> bool) (l : list A) :
  List.length (filter p l) < List.length l -> forallb p l = false.
Proof.
  induction l as [|a l IH]; cbn; [lia|].
  destruct (p a); cbn; [|reflexivity]. intros L. apply IH. lia.
Qed.

End SessionFacts.

(** C1.  In a Run Session of the N registered services, after any sequence
    of events, the aggregate readiness signal has been written to
    [readyOut] if and only if every registered service has signalled its
    readiness; it is written at most once; and while fewer than N services
    have signalled, or while some registered service has sent no readiness
    signal at all, nothing has been written. *)
Theorem aggregate_readiness_iff :
  forall (S : Type) (SS : ServiceManager.Service S)
         (m : ServiceManager.Manager S) (evs : list ServiceManager.Event),
    let s := ServiceManager.exec (ServiceManager.start m) evs in
    map ServiceManager.uname (ServiceManager.units s)
    = map ServiceManager.Name (ServiceManager.services m)
    /\ (ServiceManager.readyOut s = 1 <->
        forall u, In u (ServiceManager.units s) ->
                  ServiceManager.signalled u = true)
    /\ ServiceManager.readyOut s <= 1
    /\ (List.length (filter ServiceManager.signalled (ServiceManager.units s))
        < List.length (ServiceManager.services m) ->
        ServiceManager.readyOut s = 0)
    /\ (forall s0, In s0 (ServiceManager.services m) ->
          ~ In (ServiceManager.SvcReady (ServiceManager.Name s0)) evs ->
          ServiceManager.readyOut s = 0).
Proof.
  intros S SS m evs s.
  pose proof (SessionFacts.Inv_exec evs (SessionFacts.Inv_start m)) as [I1 _].
  fold s in I1.
  assert (N : map ServiceManager.uname (ServiceManager.units s)
              = map ServiceManager.Name (ServiceManager.services m)).
  { unfold s. rewrite SessionFacts.exec_unames. apply SessionFacts.start_unames. }
  split; [exact N|]. split; [|split; [|split]].
  - rewrite I1. rewrite <- forallb_forall.
    destruct (forallb ServiceManager.signalled (ServiceManager.units s));
      split; congruence.
  - rewrite I1.
    destruct (forallb ServiceManager.signalled (ServiceManager.units s)); lia.
  - intros L. rewrite I1.
    rewrite SessionFacts.filter_length_lt; [reflexivity|].
    apply (f_equal (@List.length _)) in N. rewrite !length_map in N.
    rewrite N. exact L.
  - intros s0 Hin Hno. rewrite I1.
    destruct (forallb ServiceManager.signalled (ServiceManager.units s)) eqn:F;
      [|reflexivity].
    exfalso.
    pose proof (@SessionFacts.exec_unsignalled _ evs _ Hno
                  (@SessionFacts.start_unsignalled _ _ m (ServiceManager.Name s0)))
      as U.
    fold s in U.
    assert (Hn : In (ServiceManager.Name s0)
                    (map ServiceManager.uname (ServiceManager.units s))).
    { rewrite N. now apply in_map. }
    apply in_map_iff in Hn as [u [Hu Hinu]].
    rewrite forallb_forall in F. specialize (F u Hinu).
    rewrite (U u Hinu Hu) in F. discriminate.
Qed.

(** The theorem at a session of three services: with "A" and "B" ready
    and "C" silent nothing is written; once "C" has signalled too,
    [readyOut] is written. *)
Lemma aggregate_readiness_iff_witness :
  ServiceManager.readyOut
    (ServiceManager.exec
       (ServiceManager.start (ServiceManager.mkManager ["A"; "B"; "C"] false))
       [ServiceManager.SvcReady "A"; ServiceManager.SvcReady "B"]) = 0
  /\ ServiceManager.readyOut
       (ServiceManager.exec
          (ServiceManager.start (ServiceManager.mkManager ["A"; "B"; "C"] false))
          [ServiceManager.SvcReady "A"; ServiceManager.SvcReady "C";
           ServiceManager.SvcReady "B"]) = 1.
Proof.
  split.
  - apply (@aggregate_readiness_iff string _
             (ServiceManager.mkManager ["A"; "B"; "C"] false)
             [ServiceManager.SvcReady "A"; ServiceManager.SvcReady "B"])
      with (s0 := "C").
    + cbn. auto.
    + cbn. intuition discriminate.
  - apply (@aggregate_readiness_iff string _
             (ServiceManager.mkManager ["A"; "B"; "C"] false)
             [ServiceManager.SvcReady "A"; ServiceManager.SvcReady "C";
              ServiceManager.SvcReady "B"]).
    intros u Hin. vm_compute in Hin.
    destruct Hin as [<- | [<- | [<- | []]]]; reflexivity.
Defined.

(** C4.  If a service's [run] returns an error while that service is
    live and has not signalled readiness, then the manager's [run] has
    returned a non-nil error, the shared scope is cancelled, and
    [readyOut] is not written, then or after any further events.  When the
    manager had not returned before, the error it returns is the startup
    failure of that service, and the services it stops are the other
    services still running, in reverse registration order. *)
Theorem startup_failure_fatal :
  forall (S : Type) (SS : ServiceManager.Service S)
         (m : ServiceManager.Manager S) (evs : list ServiceManager.Event)
         (n e : string),
    let s := ServiceManager.exec (ServiceManager.start m) evs in
    ServiceManager.pendingReady n (ServiceManager.units s) = true ->
    let s' := ServiceManager.step s (ServiceManager.SvcReturn n (Some e)) in
    (exists err, ServiceManager.returned s' = Some (Some err))
    /\ ServiceManager.scopeCancelled s' = true
    /\ (forall evs', ServiceManager.readyOut (ServiceManager.exec s' evs') = 0)
    /\ (ServiceManager.returned s = None ->
        ServiceManager.returned s'
        = Some (Some (ServiceManager.StartupFailure n e))
        /\ ServiceManager.stopOrder s'
           = rev (map ServiceManager.uname
                    (filter ServiceManager.alive (ServiceManager.units s')))
        /\ ~ In n (ServiceManager.stopOrder s')
        /\ map ServiceManager.uname (ServiceManager.units s')
           = map ServiceManager.Name (ServiceManager.services m)).
Proof.
  intros S SS m evs n e s P s'.
  pose proof (SessionFacts.Inv_exec evs (SessionFacts.Inv_start m)) as I.
  fold s in I.
  pose proof (SessionFacts.Inv_step (ServiceManager.SvcReturn n (Some e)) I) as I'.
  fold s' in I'.
  assert (DU : existsb SessionInv.deadUnsignalled (ServiceManager.units s') = true).
  { unfold s'. cbn [ServiceManager.step].
    destruct (ServiceManager.returned s); [|rewrite P];
      cbn; now apply SessionFacts.pendingReady_returned. }
  assert (Never : forall evs',
             ServiceManager.readyOut (ServiceManager.exec s' evs') = 0).
  { intros evs'.
    pose proof (SessionFacts.Inv_exec evs' I') as [J _]. rewrite J.
    rewrite (SessionFacts.deadUnsignalled_not_all _
               (SessionFacts.exec_deadUnsignalled evs' _ DU)).
    reflexivity. }
  destruct (ServiceManager.returned s) as [r|] eqn:R.
  - destruct I as [_ I2]. destruct (I2 r R) as [SC [[[n0 [e0 St]] _] | AD]].
    + subst r.
      assert (E : ServiceManager.returned s'
                  = Some (Some (ServiceManager.StartupFailure n0 e0))
                  /\ ServiceManager.scopeCancelled s' = true).
      { unfold s'. cbn [ServiceManager.step]. rewrite R. cbn. auto. }
      destruct E as [E1 E2].
      split; [eauto|]. split; [exact E2|]. split; [exact Never|].
      discriminate.
    + rewrite (SessionFacts.pendingReady_not_all_dead _ _ P) in AD.
      discriminate.
  - assert (E : s' = ServiceManager.startupFailure n e
                       (ServiceManager.mkSession
                          (map (ServiceManager.markReturned n (Some e))
                               (ServiceManager.units s))
                          (ServiceManager.scopeCancelled s)
                          (ServiceManager.readyOut s)
                          (ServiceManager.stoppedOut s)
                          None
                          (ServiceManager.stopOrder s))).
    { unfold s'. cbn [ServiceManager.step]. rewrite R, P. reflexivity. }
    split; [rewrite E; cbn; eauto|].
    split; [rewrite E; reflexivity|].
    split; [exact Never|].
    intros _. rewrite E. cbn.
    split; [reflexivity|]. split; [reflexivity|]. split.
    + unfold ServiceManager.reverseStopOrder. rewrite <- in_rev.
      intros Hin. apply in_map_iff in Hin as [u [Hu Hin]].
      apply filter_In in Hin as [Hin Ha].
      apply in_map_iff in Hin as [u0 [<- Hin]].
      rewrite SessionFacts.markReturned_uname in Hu.
      unfold ServiceManager.markReturned in Ha.
      rewrite Hu, String.eqb_refl in Ha. cbn in Ha.
      destruct (ServiceManager.alive u0) eqn:A; cbn in Ha; congruence.
    + rewrite map_map.
      erewrite map_ext; [|intros; apply SessionFacts.markReturned_uname].
      unfold s. rewrite SessionFacts.exec_unames.
      apply SessionFacts.start_unames.
Qed.

(** The theorem at the session of the specification's scenario: "A" and
    "B" registered, "A" has signalled, "B" returns an error first. *)
Lemma startup_failure_fatal_witness :
  ServiceManager.returned
    (ServiceManager.exec
       (ServiceManager.start (ServiceManager.mkManager ["A"; "B"] false))
       [ServiceManager.SvcReady "A";
        ServiceManager.SvcReturn "B" (Some "boom")])
  = Some (Some (ServiceManager.StartupFailure "B" "boom"))
  /\ forall evs',
       ServiceManager.readyOut
         (ServiceManager.exec
            (ServiceManager.step
               (ServiceManager.exec
                  (ServiceManager.start (ServiceManager.mkManager ["A"; "B"] false))
                  [ServiceManager.SvcReady "A"])
               (ServiceManager.SvcReturn "B" (Some "boom")))
            evs') = 0.
Proof.
  pose proof (@startup_failure_fatal string _
                (ServiceManager.mkManager ["A"; "B"] false)
                [ServiceManager.SvcReady "A"] "B" "boom" eq_refl)
    as [_ [_ [Hnever Hret]]].
  split.
  - apply Hret. reflexivity.
  - exact Hnever.
Defined.

(** ** The run command: schedules and invariants *)

Module RunFacts.

Import Run RunInv.

Lemma exec_app tr1 : forall tr2 w,
  exec w (tr1 ++ tr2) =
  match exec w tr1 with
  | Some w1 => exec w1 tr2
  | None => None
  end.
Proof.
  induction tr1 as [|l tr1 IH]; cbn; intros tr2 w; [reflexivity|].
  destruct (step w l); [apply IH | reflexivity].
Qed.

(** Induction over the states a schedule reaches. *)
Lemma exec_invariant (P : State -> Prop) :
  (forall w l w', P w -> step w l = Some w' -> P w') ->
  forall tr w w', P w -> exec w tr = Some w' -> P w'.
Proof.
  intros Hstep. induction tr as [|l tr IH]; cbn; intros w w' Pw E.
  - injection E as <-. exact Pw.
  - destruct (step w l) as [w1|] eqn:S1; [|discriminate].
    eapply IH; [|exact E]. eapply Hstep; eauto.
Qed.

(** Case analysis of one enabled step. *)
Ltac step_cases H :=
  match type of H with
  | step ?w ?l = Some _ =>
      destruct l as [d | sg | | | | err | [ | ] | [io | | | | | ]];
      cbn [step] in H;
      unfold managerStart, managerReturn, watcherStep, mainStep, deliver in H;
      repeat match type of H with
             | context [match ?x with _ => _ end] => destruct x eqn:?
             end;
      try discriminate H;
      injection H as <-
  end.

Lemma logged_logf p m w : logged p (logf m w) = logged p w + b2n (p m).
Proof.
  unfold logged, logf. cbn. rewrite filter_app, length_app. cbn.
  destruct (p m); reflexivity.
Qed.

Lemma Done_mono c t d :
  Context.Done t c = true -> Context.Done (t + Z.of_N d) c = true.
Proof.
  unfold Context.Done. destruct (Context.cancelled c); cbn; [auto|].
  destruct (Context.deadline c); [|auto].
  rewrite !Z.leb_le. lia.
Qed.

Lemma Done_cancel t c : Context.Done t (Context.cancel c) = true.
Proof. reflexivity. Qed.

Lemma run_Inv_init rd sock name : Inv rd sock (init rd sock name).
Proof.
  split; cbn; try reflexivity; try discriminate; try lia; auto.
Qed.

Ltac rewrite_pcs :=
  repeat match goal with
         | E : main _ = _ |- _ => rewrite E in *; clear E
         | E : watcher _ = _ |- _ => rewrite E in *; clear E
         | E : manager _ = _ |- _ => rewrite E in *; clear E
         end.

Lemma notifyLine_cases r :
  (exists e, notifyLine r = LNotifyError e)
  \/ notifyLine r = LNotifySent \/ notifyLine r = LNotifyUnsupported.
Proof. destruct r as [[|] [e|]]; cbn; eauto. Qed.

Ltac log_arith :=
  unfold logged in *; cbn in *;
  rewrite ?filter_app, ?length_app in *; cbn in *;
  try match goal with
      | |- context [notifyLine ?r] =>
          destruct (notifyLine_cases r) as [[? ->] | [-> | ->]]; cbn
      end;
  try lia.

(** Every step keeps the invariant. *)
Lemma run_Inv_step rd sock w l w' :
  Inv rd sock w -> step w l = Some w' -> Inv rd sock w'.
Proof.
  intros I S.
  pose proof (inv_now I) as I1.
  pose proof (inv_cert_deadline I) as I2.
  pose proof (inv_run_deadline I) as I3.
  pose proof (inv_socket I) as I4.
  pose proof (inv_watcher_exited I) as I5.
  pose proof (inv_cert_cancelled I) as I6.
  pose proof (inv_run_cancelled I) as I7.
  pose proof (inv_main_cancelled I) as I8.
  pose proof (inv_waiting I) as I9.
  pose proof (inv_ready I) as I10.
  pose proof (inv_calls I) as I11.
  pose proof (inv_socket_after I) as I12.
  pose proof (inv_result I) as I13.
  pose proof (inv_log_ready I) as I14.
  pose proof (inv_log_stopping I) as I15.
  pose proof (inv_log_interrupt I) as I16.
  pose proof (inv_log_rotation I) as I17.
  pose proof (inv_log_stopped I) as I18.
  pose proof (inv_log_timedout I) as I19.
  clear I.
  step_cases S; rewrite_pcs; split; cbn in *;
    try assumption; try discriminate; try lia;
    try (intros; discriminate);
    try (log_arith; fail).
  all: try (intros; repeat split; auto; try apply Done_mono; tauto).
  - (* the watcher saw the run context done: it had been cancelled *)
    intros _. split; [|reflexivity].
    unfold Context.Done in *. rewrite I3, orb_false_r in *. assumption.
  - intros _. destruct (I9 eq_refl) as [_ ->]. auto.
  - destruct (I9 eq_refl) as [_ ->]. lia.
  - intros r E. injection E as <-. reflexivity.
  - intros r E. injection E as <-. reflexivity.
Qed.

Lemma run_Inv_exec rd sock name tr w :
  exec (init rd sock name) tr = Some w -> Inv rd sock w.
Proof.
  apply exec_invariant with (P := Inv rd sock).
  - intros w0 l w1. apply run_Inv_step.
  - apply run_Inv_init.
Qed.

(** [time.Duration(60) * time.Second] does not overflow: the grace period
    is sixty seconds. *)
Lemma gracePeriod_value : gracePeriod = (60 * Second)%Z.
Proof. reflexivity. Qed.

(** The second select is left only for [Stopped], with a nil error. *)
Lemma ShuttingDown_step w l w' t :
  main w = ShuttingDown t -> step w l = Some w' ->
  main w' = ShuttingDown t \/ main w' = Stopped None.
Proof.
  intros M S. step_cases S; cbn; auto; congruence.
Qed.

Lemma Stopped_step w l w' r :
  main w = Stopped r -> step w l = Some w' -> main w' = Stopped r.
Proof.
  intros M S. step_cases S; cbn; auto; congruence.
Qed.

Lemma Stopped_exec tr : forall w w' r,
  main w = Stopped r -> exec w tr = Some w' -> main w' = Stopped r.
Proof.
  induction tr as [|l tr IH]; cbn; intros w w' r M E.
  - injection E as <-. exact M.
  - destruct (step w l) as [w1|] eqn:S1; [|discriminate].
    eapply IH; [|exact E]. eapply Stopped_step; eauto.
Qed.

Lemma ShuttingDown_exec tr : forall w w' t,
  main w = ShuttingDown t -> exec w tr = Some w' ->
  main w' = ShuttingDown t \/ main w' = Stopped None.
Proof.
  induction tr as [|l tr IH]; cbn; intros w w' t M E.
  - injection E as <-. now left.
  - destruct (step w l) as [w1|] eqn:S1; [|discriminate].
    destruct (@ShuttingDown_step _ _ _ _ M S1) as [M1 | M1].
    + eapply IH; eauto.
    + right. eapply Stopped_exec; eauto.
Qed.

(** The steps that enter the second select arm its timer one grace period
    after the current clock reading. *)
Lemma enter_ShuttingDown w c w1 :
  shutdownBegun (main w) = false ->
  step w (Main c) = Some w1 ->
  shutdownBegun (main w1) = true ->
  main w1 = ShuttingDown (now w + gracePeriod) /\ now w1 = now w.
Proof.
  intros B S B1.
  cbn [step] in S. unfold mainStep in S.
  destruct (main w) eqn:M; try discriminate B;
    destruct c; try discriminate S;
    repeat match type of S with
           | context [match ?x with _ => _ end] => destruct x eqn:?
           end;
    try discriminate S; injection S as <-; cbn in *; auto; discriminate.
Qed.

(** What the second select can do. *)
Lemma second_select w t :
  main w = ShuttingDown t ->
  (stopped w = true ->
   step w (Main CaseStopped)
   = Some (setMain (Stopped None) (logf LStopped w)))
  /\ ((t <= now w)%Z ->
      step w (Main CaseTimeout)
      = Some (setMain (Stopped None) (logf LStopped (logf LTimedOut w))))
  /\ (forall c w', step w (Main c) = Some w' ->
        (c = CaseStopped /\ stopped w = true
         /\ w' = setMain (Stopped None) (logf LStopped w))
        \/ (c = CaseTimeout /\ (t <= now w)%Z
            /\ w' = setMain (Stopped None) (logf LStopped (logf LTimedOut w)))).
Proof.
  intros M. cbn [step]. unfold mainStep. rewrite M.
  split; [|split].
  - intros ->. reflexivity.
  - intros L. apply Z.leb_le in L. rewrite L. reflexivity.
  - intros c w' S. destruct c; try discriminate S.
    + destruct (stopped w); [|discriminate]. injection S as <-. auto.
    + destruct (t <=? now w)%Z eqn:L; [|discriminate].
      apply Z.leb_le in L. injection S as <-. auto.
Qed.

(** [RunMicroshift] returns nil or not at all. *)
Lemma result_nil_step w l w' :
  (forall r, main w = Stopped r -> r = None) ->
  step w l = Some w' ->
  forall r, main w' = Stopped r -> r = None.
Proof.
  intros P S. step_cases S; cbn; auto; intros r E; congruence.
Qed.

End RunFacts.

(** *** The two contexts and the watcher *)

Module ScopeFacts.

Import Run RunInv RunFacts.

(** What the watcher's select can do. *)
Lemma watcher_select w :
  watcher w = WatcherSelect ->
  (Context.Done (now w) (certCtx w) = true ->
   step w (Watcher WCertDone)
   = Some (setWatcher WatcherExited (runCancel (logf LRotation w))))
  /\ (Context.Done (now w) (runCtx w) = true ->
      step w (Watcher WRunDone)
      = Some (setWatcher WatcherExited (certCancel (logf LWatcherExit w))))
  /\ (forall c w1, step w (Watcher c) = Some w1 ->
        (c = WCertDone /\ Context.Done (now w) (certCtx w) = true
         /\ w1 = setWatcher WatcherExited (runCancel (logf LRotation w)))
        \/ (c = WRunDone /\ Context.Done (now w) (runCtx w) = true
            /\ w1 = setWatcher WatcherExited (certCancel (logf LWatcherExit w)))).
Proof.
  intros W. cbn [step]. unfold watcherStep. rewrite W.
  split; [|split].
  - intros ->. reflexivity.
  - intros ->. reflexivity.
  - intros c w1 S. destruct c.
    + destruct (Context.Done (now w) (certCtx w)); [|discriminate].
      injection S as <-. auto.
    + destruct (Context.Done (now w) (runCtx w)); [|discriminate].
      injection S as <-. auto.
Qed.

(** A watcher that has returned takes no further step. *)
Lemma watcher_exited_step w l w' :
  watcher w = WatcherExited -> step w l = Some w' -> watcher w' = WatcherExited.
Proof.
  intros W S. step_cases S; cbn; auto; congruence.
Qed.

Lemma watcher_exited_exec tr : forall w w',
  watcher w = WatcherExited -> exec w tr = Some w' -> watcher w' = WatcherExited.
Proof.
  induction tr as [|l tr IH]; cbn; intros w w' W E.
  - injection E as <-. exact W.
  - destruct (step w l) as [w1|] eqn:S1; [|discriminate].
    eapply IH; [|exact E]. eapply watcher_exited_step; eauto.
Qed.

(** A schedule continued is a schedule. *)
Lemma reach_app rd sock name tr w tr' w' :
  exec (init rd sock name) tr = Some w -> exec w tr' = Some w' ->
  exec (init rd sock name) (tr ++ tr') = Some w'.
Proof.
  intros E E'. rewrite exec_app, E. exact E'.
Qed.

(** While the watcher is in its select, the certificate context is done
    exactly when its deadline, the rotation date, has passed. *)
Lemma certDone_iff rd sock w :
  Inv rd sock w -> watcher w = WatcherSelect ->
  Context.Done (now w) (certCtx w) = true <-> (rd <= now w)%Z.
Proof.
  intros I W. unfold Context.Done. rewrite (inv_cert_deadline I).
  destruct (Context.cancelled (certCtx w)) eqn:C.
  - apply (inv_cert_cancelled I) in C. congruence.
  - cbn. apply Z.leb_le.
Qed.

(** The run context has no deadline: it is done exactly when cancelled. *)
Lemma runDone_iff rd sock w :
  Inv rd sock w ->
  Context.Done (now w) (runCtx w) = Context.cancelled (runCtx w).
Proof.
  intros I. unfold Context.Done. rewrite (inv_run_deadline I).
  apply orb_false_r.
Qed.

End ScopeFacts.

(** *** The readiness handshake *)

Module NotifyFacts.

Import Run RunInv RunFacts.

(** [SdNotify] is called in the ready case and nowhere else. *)
Lemma calls_step w l w' :
  step w l = Some w' ->
  sdNotifyCalls w' = sdNotifyCalls w + b2n (entersReady l).
Proof.
  intros S. step_cases S; cbn; lia.
Qed.

Lemma calls_exec tr : forall w w',
  exec w tr = Some w' ->
  sdNotifyCalls w' = sdNotifyCalls w + announcements tr.
Proof.
  unfold announcements.
  induction tr as [|l tr IH]; cbn [exec]; intros w w' E.
  - injection E as <-. cbn. lia.
  - destruct (step w l) as [w1|] eqn:S1; [|discriminate].
    rewrite (IH _ _ E), (calls_step _ _ S1). cbn [filter].
    destruct (entersReady l); cbn; lia.
Qed.

(** The ready case: only from the first select, only when [ready] has
    fired; it restores the socket variable, calls [SdNotify] and leaves
    the main goroutine waiting for a signal. *)
Lemma ready_case w io w1 :
  step w (Main (CaseReady io)) = Some w1 ->
  main w = WaitingForReady /\ ready w = true /\ w1 = announce io w.
Proof.
  cbn [step]. unfold mainStep.
  destruct (main w); try discriminate.
  destruct (ready w); [|discriminate].
  intros E. injection E as <-. auto.
Qed.

Lemma shutdownBegun_step w l w' :
  shutdownBegun (main w) = true -> step w l = Some w' ->
  shutdownBegun (main w') = true /\ entersReady l = false.
Proof.
  intros B S. step_cases S; cbn in *; auto; try congruence;
    match goal with E : main w = _ |- _ => rewrite E in B; discriminate end.
Qed.

Lemma shutdownBegun_exec tr : forall w w',
  shutdownBegun (main w) = true -> exec w tr = Some w' ->
  shutdownBegun (main w') = true /\ announcements tr = 0.
Proof.
  unfold announcements.
  induction tr as [|l tr IH]; cbn [exec]; intros w w' B E.
  - injection E as <-. auto.
  - destruct (step w l) as [w1|] eqn:S1; [|discriminate].
    destruct (shutdownBegun_step _ _ B S1) as [B1 N].
    cbn [filter]. rewrite N. eapply IH; eauto.
Qed.

(** A schedule that contains a step into [Ready] passes through a state
    in which the main goroutine is in [Ready]. *)
Lemma announced_visits_Ready tr : forall w w',
  exec w tr = Some w' -> 0 < announcements tr ->
  exists tr1 tr2 w1,
    tr = (tr1 ++ tr2)%list /\ exec w tr1 = Some w1 /\ main w1 = Ready.
Proof.
  unfold announcements.
  induction tr as [|l tr IH]; cbn [exec filter]; intros w w' E A.
  - cbn in A. lia.
  - destruct (step w l) as [w1|] eqn:S1; [|discriminate].
    destruct (entersReady l) eqn:R.
    + exists [l], tr, w1. split; [reflexivity|]. split.
      * cbn. rewrite S1. reflexivity.
      * destruct l as [ | | | | | | | c]; try discriminate R.
        destruct c; try discriminate R.
        destruct (ready_case _ _ S1) as [_ [_ ->]]. reflexivity.
    + destruct (IH _ _ E A) as [tr1 [tr2 [w2 [-> [E2 M2]]]]].
      exists (l :: tr1), tr2, w2. split; [reflexivity|]. split; [|exact M2].
      cbn. rewrite S1. exact E2.
Qed.

End NotifyFacts.

(** *** Triggers and what the log records *)

Module TriggerFacts.

Import Run RunInv RunFacts.

(** Once the main goroutine has begun to shut down, it logs nothing more
    about signals or about stopping services. *)
Lemma begun_log_step w l w' :
  shutdownBegun (main w) = true -> step w l = Some w' ->
  logged isInterrupt w' = logged isInterrupt w
  /\ logged isStopping w' = logged isStopping w.
Proof.
  intros B S. step_cases S; cbn in *;
    try (match goal with E : main w = _ |- _ => rewrite E in B; discriminate end);
    unfold logged; cbn; rewrite ?filter_app, ?length_app; cbn;
    try match goal with
        | |- context [notifyLine ?r] =>
            destruct (notifyLine_cases r) as [[? ->] | [-> | ->]]; cbn
        end;
    split; lia.
Qed.

Lemma begun_log_exec tr : forall w w',
  shutdownBegun (main w) = true -> exec w tr = Some w' ->
  shutdownBegun (main w') = true
  /\ logged isInterrupt w' = logged isInterrupt w
  /\ logged isStopping w' = logged isStopping w.
Proof.
  induction tr as [|l tr IH]; cbn [exec]; intros w w' B E.
  - injection E as <-. auto.
  - destruct (step w l) as [w1|] eqn:S1; [|discriminate].
    destruct (@begun_log_step _ _ _ B S1) as [L1 L2].
    assert (B1 : shutdownBegun (main w1) = true).
    { clear - B S1. step_cases S1; cbn in *; auto; congruence. }
    destruct (IH _ _ B1 E) as [B' [L1' L2']].
    split; [exact B'|]. split; congruence.
Qed.

(** [runCancel] on a cancelled run context changes nothing. *)
Lemma runCancel_idempotent w :
  Context.cancelled (runCtx w) = true -> runCancel w = w.
Proof.
  destruct w as [? ? ? ? ? [dl c] ? ? ? ? ? ? ? ?]. cbn. intros ->.
  reflexivity.
Qed.

(** A delivered signal is in the channel, or one already was. *)
Lemma deliver_nonempty s w : sigTerm (deliver s w) <> [].
Proof.
  unfold deliver. destruct (sigTerm w) as [|x q] eqn:Q; cbn;
    rewrite ?Q; discriminate.
Qed.

Lemma deliver_frame s w :
  main (deliver s w) = main w /\ now (deliver s w) = now w
  /\ log (deliver s w) = log w /\ runCtx (deliver s w) = runCtx w.
Proof.
  unfold deliver. destruct (_ <? _)%nat; cbn; auto.
Qed.

(** The manager's return only writes a log line. *)
Lemma managerReturn_frame w err w1 :
  step w (ManagerReturn err) = Some w1 ->
  main w1 = main w /\ watcher w1 = watcher w /\ now w1 = now w
  /\ runCtx w1 = runCtx w /\ certCtx w1 = certCtx w
  /\ sigTerm w1 = sigTerm w /\ ready w1 = ready w /\ stopped w1 = stopped w.
Proof.
  cbn [step]. unfold managerReturn.
  destruct (manager w); try discriminate.
  intros E. injection E as <-. destruct err; cbn; repeat split.
Qed.

(** Whether a step of the watcher or of the main goroutine is enabled
    depends on these fields only. *)
Lemma internal_enabled w w1 l :
  main w1 = main w -> watcher w1 = watcher w -> now w1 = now w ->
  runCtx w1 = runCtx w -> certCtx w1 = certCtx w ->
  sigTerm w1 = sigTerm w -> ready w1 = ready w -> stopped w1 = stopped w ->
  internal l = true ->
  step w1 l = None <-> step w l = None.
Proof.
  intros E1 E2 E3 E4 E5 E6 E7 E8 Hl.
  destruct l as [ | | | | | | c | c]; try discriminate Hl; cbn [step].
  - unfold watcherStep. rewrite E2, E3, E4, E5.
    destruct (watcher w); [|tauto].
    destruct c;
      match goal with |- context [if ?b then _ else _] => destruct b end;
      split; congruence.
  - unfold mainStep. rewrite E1, E3, E4, E6, E7, E8.
    destruct (main w); destruct c; try tauto;
      repeat match goal with
             | |- context [match ?x with _ => _ end] => destruct x
             end;
      split; congruence.
Qed.

End TriggerFacts.

(** C3.  Entering shutdown (from the first select or from [Ready]) arms
    the timer of the second select one grace period after the current
    clock reading, the grace period being the constant
    [gracefulShutdownTimeout] = 60 taken in seconds.  From then on, and
    whatever else happens, the main goroutine is in that select or has
    returned; while it is in the select: if [stopped] has fired it can
    proceed to [Stopped], logging only "MicroShift stopped"; once the grace
    period has elapsed it can proceed to [Stopped], logging the timeout
    first; before either it waits; every step it can take ends in
    [Stopped]; and letting the clock run to the timer always lets it
    return, so it never blocks for good. *)
Theorem grace_period_bounded :
  forall (w : Run.State) (c : Run.MainCase) (w1 : Run.State),
    RunInv.shutdownBegun (Run.main w) = false ->
    Run.step w (Run.Main c) = Some w1 ->
    RunInv.shutdownBegun (Run.main w1) = true ->
    gracefulShutdownTimeout = 60%Z
    /\ gracePeriod = (gracefulShutdownTimeout * Second)%Z
    /\ Run.main w1 = Run.ShuttingDown (Run.now w + gracePeriod)
    /\ forall tr w2,
         Run.exec w1 tr = Some w2 ->
         (Run.main w2 = Run.ShuttingDown (Run.now w + gracePeriod)
          \/ Run.main w2 = Run.Stopped None)
         /\ (Run.main w2 = Run.ShuttingDown (Run.now w + gracePeriod) ->
             (Run.stopped w2 = true ->
              exists w3, Run.step w2 (Run.Main Run.CaseStopped) = Some w3
                         /\ Run.main w3 = Run.Stopped None
                         /\ Run.log w3 = (Run.log w2 ++ [Run.LStopped])%list)
             /\ ((Run.now w + gracePeriod <= Run.now w2)%Z ->
                 exists w3, Run.step w2 (Run.Main Run.CaseTimeout) = Some w3
                            /\ Run.main w3 = Run.Stopped None
                            /\ Run.log w3
                               = (Run.log w2 ++ [Run.LTimedOut; Run.LStopped])%list)
             /\ (Run.stopped w2 = false ->
                 (Run.now w2 < Run.now w + gracePeriod)%Z ->
                 forall c', Run.step w2 (Run.Main c') = None)
             /\ (forall c' w3, Run.step w2 (Run.Main c') = Some w3 ->
                   Run.main w3 = Run.Stopped None)
             /\ (forall d : N,
                   (Run.now w + gracePeriod <= Run.now w2 + Z.of_N d)%Z ->
                   exists w3,
                     Run.exec w2 [Run.Tick d; Run.Main Run.CaseTimeout] = Some w3
                     /\ Run.main w3 = Run.Stopped None)).
Proof.
  intros w c w1 B S B1.
  destruct (@RunFacts.enter_ShuttingDown _ _ _ B S B1) as [M1 _].
  split; [reflexivity|]. split; [reflexivity|]. split; [exact M1|].
  intros tr w2 E.
  split; [exact (@RunFacts.ShuttingDown_exec _ _ _ _ M1 E)|].
  intros M2.
  destruct (@RunFacts.second_select _ _ M2) as [HS [HT HA]].
  split; [|split; [|split; [|split]]].
  - intros St. eexists. split; [exact (HS St)|]. cbn. auto.
  - intros L. eexists. split; [exact (HT L)|]. cbn.
    rewrite <- app_assoc. auto.
  - intros St L c'. destruct (Run.step w2 (Run.Main c')) as [w3|] eqn:S3;
      [|reflexivity].
    destruct (HA _ _ S3) as [[_ [St' _]] | [_ [L' _]]]; [congruence | lia].
  - intros c' w3 S3.
    destruct (HA _ _ S3) as [[_ [_ ->]] | [_ [_ ->]]]; reflexivity.
  - intros d L. cbn [Run.exec].
    change (Run.step w2 (Run.Tick d))
      with (Some (Run.advance (Z.of_N d) w2)).
    cbv beta iota.
    assert (M2' : Run.main (Run.advance (Z.of_N d) w2)
                  = Run.ShuttingDown (Run.now w + gracePeriod)) by exact M2.
    destruct (@RunFacts.second_select _ _ M2') as [_ [HT' _]].
    rewrite (HT' L). eexists. split; reflexivity.
Qed.

(** The theorem when SIGTERM arrives before readiness: the timer is set
    sixty seconds ahead, and sixty seconds later the main goroutine can
    return although [stopped] never fired. *)
Lemma grace_period_bounded_witness :
  Run.main (Run.stopServices
              (Run.logf Run.LInterrupt
                 (Run.setSigTerm [] (Run.init 1000 "" "service-manager"))))
  = Run.ShuttingDown 60000000000
  /\ exists w3,
       Run.exec (Run.stopServices
                   (Run.logf Run.LInterrupt
                      (Run.setSigTerm [] (Run.init 1000 "" "service-manager"))))
                [Run.Tick 60000000000; Run.Main Run.CaseTimeout] = Some w3
       /\ Run.main w3 = Run.Stopped None.
Proof.
  pose proof (@grace_period_bounded
                (Run.deliver Run.SIGTERM (Run.init 1000 "" "service-manager"))
                Run.CaseSigTerm _ eq_refl eq_refl eq_refl)
    as [_ [_ [M H]]].
  split; [exact M|].
  destruct (H [] _ eq_refl) as [_ H2].
  destruct (H2 M) as [_ [_ [_ [_ H3]]]].
  apply (H3 60000000000%N). vm_compute. discriminate.
Defined.

(** C9.  When the grace period has elapsed and [stopped] has not fired,
    the only step of the main goroutine is the timeout case: it logs
    "Timed out waiting for services to stop" and "MicroShift stopped" and
    [RunMicroshift] returns nil, the same result as after the [stopped]
    case; and no schedule makes [RunMicroshift] return an error. *)
Theorem shutdown_timeout_not_fatal :
  forall (w : Run.State) (t : Z),
    Run.main w = Run.ShuttingDown t ->
    Run.stopped w = false ->
    (t <= Run.now w)%Z ->
    (exists w',
        Run.step w (Run.Main Run.CaseTimeout) = Some w'
        /\ Run.main w' = Run.Stopped None
        /\ Run.log w' = (Run.log w ++ [Run.LTimedOut; Run.LStopped])%list
        /\ (forall c w'', Run.step w (Run.Main c) = Some w'' -> w'' = w'))
    /\ (forall w0 w0', Run.main w0 = Run.ShuttingDown t ->
          Run.step w0 (Run.Main Run.CaseStopped) = Some w0' ->
          Run.main w0' = Run.Stopped None)
    /\ (forall tr w' r, Run.exec w tr = Some w' ->
          Run.main w' = Run.Stopped r -> r = None).
Proof.
  intros w t M St L.
  destruct (@RunFacts.second_select _ _ M) as [_ [HT HA]].
  split; [|split].
  - eexists. split; [exact (HT L)|]. split; [reflexivity|]. split.
    + cbn. rewrite <- app_assoc. reflexivity.
    + intros c w'' S.
      destruct (HA _ _ S) as [[_ [St' _]] | [_ [_ ->]]];
        [congruence | reflexivity].
  - intros w0 w0' M0 S0.
    destruct (@RunFacts.second_select _ _ M0) as [_ [_ HA0]].
    destruct (HA0 _ _ S0) as [[_ [_ ->]] | [E _]];
      [reflexivity | discriminate].
  - intros tr w' r E.
    apply (@RunFacts.exec_invariant
             (fun x => forall r, Run.main x = Run.Stopped r -> r = None)
             RunFacts.result_nil_step tr w); [|exact E].
    intros r0 E0. congruence.
Qed.

(** The theorem on a session whose services never stop: SIGTERM, then
    sixty seconds pass; the main goroutine logs the timeout and returns
    nil. *)
Lemma shutdown_timeout_not_fatal_witness :
  exists w',
    Run.exec (Run.init 1000 "" "service-manager")
             [Run.Deliver Run.SIGTERM; Run.Main Run.CaseSigTerm;
              Run.Tick 60000000000; Run.Main Run.CaseTimeout] = Some w'
    /\ Run.main w' = Run.Stopped None
    /\ Run.log w' = [Run.LStarting; Run.LInterrupt; Run.LStopping;
                     Run.LTimedOut; Run.LStopped].
Proof.
  destruct (@shutdown_timeout_not_fatal
              (Run.advance 60000000000
                 (Run.stopServices
                    (Run.logf Run.LInterrupt
                       (Run.setSigTerm [] (Run.init 1000 "" "service-manager")))))
              60000000000 eq_refl eq_refl)
    as [[w' [S [M [Lg _]]]] _].
  - vm_compute. discriminate.
  - vm_compute in S. injection S as <-.
    eexists. split; [vm_compute; reflexivity|].
    split; [exact M | exact Lg].
Defined.

(** C7.  Throughout a run the certificate context carries the rotation
    date as its deadline and the run context none; while the watcher is in
    its select the certificate context is done exactly when that date has
    passed; and once it has passed, either the watcher has already
    returned and the run context is cancelled, or the certificate case of
    the watcher's select is ready: taking it logs the rotation message and
    cancels the run context, without reading or changing the signal
    channel, and a main goroutine still waiting for readiness can then
    take its [runCtx.Done()] case into shutdown.  With the run context
    not yet cancelled this is the watcher's only case; and the certificate
    context ends with the run context: once the run context is cancelled
    the watcher's other case is ready and cancels it. *)
Theorem rotation_deadline_cancels_run :
  forall (rd : Z) (sock name : string) (tr : list Run.Label) (w : Run.State),
    Run.exec (Run.init rd sock name) tr = Some w ->
    Context.deadline (Run.certCtx w) = Some rd
    /\ Context.deadline (Run.runCtx w) = None
    /\ (Run.watcher w = Run.WatcherSelect ->
        (Context.Done (Run.now w) (Run.certCtx w) = true <-> (rd <= Run.now w)%Z))
    /\ (Run.watcher w = Run.WatcherExited ->
        Context.cancelled (Run.runCtx w) = true)
    /\ (Run.watcher w = Run.WatcherSelect -> (rd <= Run.now w)%Z ->
        exists w1,
          Run.step w (Run.Watcher Run.WCertDone) = Some w1
          /\ Context.cancelled (Run.runCtx w1) = true
          /\ Run.log w1 = (Run.log w ++ [Run.LRotation])%list
          /\ Run.sigTerm w1 = Run.sigTerm w
          /\ Run.main w1 = Run.main w
          /\ (Run.main w = Run.WaitingForReady ->
              exists w2,
                Run.step w1 (Run.Main Run.CaseRunDone) = Some w2
                /\ Run.main w2 = Run.ShuttingDown (Run.now w + gracePeriod)
                /\ Run.sigTerm w2 = Run.sigTerm w))
    /\ (Run.watcher w = Run.WatcherSelect -> (rd <= Run.now w)%Z ->
        Context.cancelled (Run.runCtx w) = false ->
        forall c w1, Run.step w (Run.Watcher c) = Some w1 -> c = Run.WCertDone)
    /\ (Run.watcher w = Run.WatcherSelect ->
        Context.cancelled (Run.runCtx w) = true ->
        exists w1,
          Run.step w (Run.Watcher Run.WRunDone) = Some w1
          /\ Context.cancelled (Run.certCtx w1) = true).
Proof.
  intros rd sock name tr w E.
  pose proof (@RunFacts.run_Inv_exec _ _ _ _ _ E) as I.
  split; [exact (RunInv.inv_cert_deadline I)|].
  split; [exact (RunInv.inv_run_deadline I)|].
  split; [intros W; exact (ScopeFacts.certDone_iff I W)|].
  split; [intros W; exact (proj1 (RunInv.inv_watcher_exited I W))|].
  split.
  - intros W L.
    apply (ScopeFacts.certDone_iff I W) in L.
    destruct (ScopeFacts.watcher_select _ W) as [HC _].
    eexists. split; [exact (HC L)|]. cbn.
    repeat split; try reflexivity.
    intros M. cbn [Run.step]. unfold Run.mainStep. cbn. rewrite M. cbn.
    eexists. split; [reflexivity|]. cbn. auto.
  - split.
    + intros W L C c w1 S.
      destruct (ScopeFacts.watcher_select _ W) as [_ [_ HA]].
      destruct (HA _ _ S) as [[-> _] | [_ [D _]]]; [reflexivity|].
      rewrite (ScopeFacts.runDone_iff I) in D. congruence.
    + intros W C.
      destruct (ScopeFacts.watcher_select _ W) as [_ [HR _]].
      eexists. split; [apply HR|reflexivity].
      rewrite (ScopeFacts.runDone_iff I). exact C.
Qed.

(** The theorem for a rotation date ten milliseconds ahead and no signal
    at all: after ten milliseconds the watcher cancels the run context and
    the main goroutine goes into shutdown. *)
Lemma rotation_deadline_cancels_run_witness :
  exists w1 w2,
    Run.step (Run.advance 10000000 (Run.init 10000000 "" "service-manager"))
             (Run.Watcher Run.WCertDone) = Some w1
    /\ Context.cancelled (Run.runCtx w1) = true
    /\ Run.step w1 (Run.Main Run.CaseRunDone) = Some w2
    /\ Run.main w2 = Run.ShuttingDown (10000000 + gracePeriod).
Proof.
  destruct (@rotation_deadline_cancels_run
              10000000 "" "service-manager" [Run.Tick 10000000] _ eq_refl)
    as [_ [_ [_ [_ [H _]]]]].
  destruct (H eq_refl) as [w1 [S1 [C1 [_ [_ [_ H2]]]]]].
  - vm_compute. discriminate.
  - destruct (H2 eq_refl) as [w2 [S2 [M2 _]]].
    exists w1, w2. repeat split; assumption.
Defined.

(** C10.  In every reachable state: if the watcher is in its select and
    the certificate context is done, its certificate case is ready and
    leaves both contexts done and the watcher returned; if the run context
    is done, its run case is ready and does the same, cancelling the
    certificate context; while neither is done the watcher waits; a
    watcher that has returned has left both contexts done, and they stay
    done; and once the main goroutine has begun to shut down, the run
    context is done, so the watcher has returned or can. *)
Theorem scopes_cancel_together :
  forall (rd : Z) (sock name : string) (tr : list Run.Label) (w : Run.State),
    Run.exec (Run.init rd sock name) tr = Some w ->
    (Run.watcher w = Run.WatcherSelect ->
     Context.Done (Run.now w) (Run.certCtx w) = true ->
     exists w1,
       Run.step w (Run.Watcher Run.WCertDone) = Some w1
       /\ Run.watcher w1 = Run.WatcherExited
       /\ Context.cancelled (Run.runCtx w1) = true
       /\ Context.Done (Run.now w1) (Run.certCtx w1) = true)
    /\ (Run.watcher w = Run.WatcherSelect ->
        Context.Done (Run.now w) (Run.runCtx w) = true ->
        exists w1,
          Run.step w (Run.Watcher Run.WRunDone) = Some w1
          /\ Run.watcher w1 = Run.WatcherExited
          /\ Context.cancelled (Run.runCtx w1) = true
          /\ Context.cancelled (Run.certCtx w1) = true)
    /\ (forall c w1, Run.step w (Run.Watcher c) = Some w1 ->
          Run.watcher w1 = Run.WatcherExited
          /\ Context.Done (Run.now w1) (Run.runCtx w1) = true
          /\ Context.Done (Run.now w1) (Run.certCtx w1) = true)
    /\ (Run.watcher w = Run.WatcherSelect ->
        Context.Done (Run.now w) (Run.certCtx w) = false ->
        Context.Done (Run.now w) (Run.runCtx w) = false ->
        forall c, Run.step w (Run.Watcher c) = None)
    /\ (Run.watcher w = Run.WatcherExited ->
        forall tr' w', Run.exec w tr' = Some w' ->
          Run.watcher w' = Run.WatcherExited
          /\ Context.Done (Run.now w') (Run.runCtx w') = true
          /\ Context.Done (Run.now w') (Run.certCtx w') = true)
    /\ (RunInv.shutdownBegun (Run.main w) = true ->
        Context.Done (Run.now w) (Run.runCtx w) = true
        /\ (Run.watcher w = Run.WatcherExited
            \/ exists w1, Run.step w (Run.Watcher Run.WRunDone) = Some w1)).
Proof.
  intros rd sock name tr w E.
  pose proof (@RunFacts.run_Inv_exec _ _ _ _ _ E) as I.
  assert (Any : forall c w1, Run.step w (Run.Watcher c) = Some w1 ->
            Run.watcher w1 = Run.WatcherExited
            /\ Context.Done (Run.now w1) (Run.runCtx w1) = true
            /\ Context.Done (Run.now w1) (Run.certCtx w1) = true).
  { intros c w1 S.
    pose proof (@RunFacts.run_Inv_step _ _ _ _ _ I S) as I1.
    assert (W1 : Run.watcher w1 = Run.WatcherExited).
    { destruct (Run.watcher w) eqn:W.
      - destruct (ScopeFacts.watcher_select _ W) as [_ [_ HA]].
        destruct (HA _ _ S) as [[_ [_ ->]] | [_ [_ ->]]]; reflexivity.
      - cbn [Run.step] in S. unfold Run.watcherStep in S.
        rewrite W in S. discriminate. }
    split; [exact W1|].
    destruct (RunInv.inv_watcher_exited I1 W1) as [C D].
    split; [|exact D].
    rewrite (ScopeFacts.runDone_iff I1). exact C. }
  split; [|split; [|split; [|split; [|split]]]].
  - intros W D. destruct (ScopeFacts.watcher_select _ W) as [HC _].
    eexists. split; [exact (HC D)|].
    destruct (Any _ _ (HC D)) as [W1 [_ D1]].
    split; [exact W1|]. split; [reflexivity | exact D1].
  - intros W D. destruct (ScopeFacts.watcher_select _ W) as [_ [HR _]].
    eexists. split; [exact (HR D)|].
    destruct (Any _ _ (HR D)) as [W1 [D1 _]].
    split; [exact W1|]. split; [|reflexivity].
    cbn. rewrite (ScopeFacts.runDone_iff I) in D. exact D.
  - exact Any.
  - intros W DC DR c.
    destruct (Run.step w (Run.Watcher c)) as [w1|] eqn:S; [|reflexivity].
    destruct (ScopeFacts.watcher_select _ W) as [_ [_ HA]].
    destruct (HA _ _ S) as [[_ [D _]] | [_ [D _]]]; congruence.
  - intros W tr' w' E'.
    pose proof (@RunFacts.run_Inv_exec _ _ _ _ _
                  (@ScopeFacts.reach_app _ _ _ _ _ _ _ E E')) as I'.
    pose proof (@ScopeFacts.watcher_exited_exec _ _ _ W E') as W'.
    split; [exact W'|].
    destruct (RunInv.inv_watcher_exited I' W') as [C D].
    split; [|exact D].
    rewrite (ScopeFacts.runDone_iff I'). exact C.
  - intros B. pose proof (RunInv.inv_main_cancelled I B) as C.
    assert (D : Context.Done (Run.now w) (Run.runCtx w) = true)
      by (rewrite (ScopeFacts.runDone_iff I); exact C).
    split; [exact D|].
    destruct (Run.watcher w) eqn:W; [right | now left].
    destruct (ScopeFacts.watcher_select _ W) as [_ [HR _]].
    eexists. exact (HR D).
Qed.

(** The theorem on a session stopped by SIGTERM long before the rotation
    date: the main goroutine cancels the run context, and the watcher then
    cancels the certificate context and returns. *)
Lemma scopes_cancel_together_witness :
  exists w1,
    Run.exec (Run.init 86400000000000 "" "service-manager")
             [Run.Deliver Run.SIGTERM; Run.Main Run.CaseSigTerm;
              Run.Watcher Run.WRunDone] = Some w1
    /\ Run.watcher w1 = Run.WatcherExited
    /\ Context.cancelled (Run.runCtx w1) = true
    /\ Context.cancelled (Run.certCtx w1) = true.
Proof.
  destruct (@scopes_cancel_together
              86400000000000 "" "service-manager"
              [Run.Deliver Run.SIGTERM; Run.Main Run.CaseSigTerm] _ eq_refl)
    as [_ [H _]].
  destruct (H eq_refl eq_refl) as [w1 [S1 [W1 [C1 C2]]]].
  vm_compute in S1. injection S1 as <-.
  eexists. split; [vm_compute; reflexivity|].
  split; [exact W1|]. split; [exact C1 | exact C2].
Defined.

(** C6.  Along any schedule [daemon.SdNotify] has been called once for
    each entry of the main goroutine into [Ready], hence at most once; it
    has been called exactly when the main goroutine has been in [Ready];
    while the main goroutine waits for readiness it has not been called and
    NOTIFY_SOCKET is unset; the ready case needs the manager's [ready]
    signal and restores NOTIFY_SOCKET for the call; and when the main
    goroutine takes the signal case of the first select it goes to
    [ShuttingDown], never to [Ready], and [SdNotify] is not called whatever
    follows. *)
Theorem readiness_announced_once :
  forall (rd : Z) (sock name : string) (tr : list Run.Label) (w : Run.State),
    Run.exec (Run.init rd sock name) tr = Some w ->
    Run.sdNotifyCalls w = RunInv.announcements tr
    /\ Run.sdNotifyCalls w <= 1
    /\ (Run.sdNotifyCalls w = 1 <->
        exists tr1 tr2 w1,
          tr = (tr1 ++ tr2)%list
          /\ Run.exec (Run.init rd sock name) tr1 = Some w1
          /\ Run.main w1 = Run.Ready)
    /\ (Run.main w = Run.WaitingForReady ->
        Run.sdNotifyCalls w = 0 /\ Run.NOTIFY_SOCKET w = "")
    /\ (forall io w1, Run.step w (Run.Main (Run.CaseReady io)) = Some w1 ->
          Run.main w = Run.WaitingForReady /\ Run.ready w = true
          /\ Run.main w1 = Run.Ready
          /\ Run.sdNotifyCalls w1 = 1
          /\ Run.NOTIFY_SOCKET w1 = sock)
    /\ (Run.main w = Run.WaitingForReady ->
        forall w1, Run.step w (Run.Main Run.CaseSigTerm) = Some w1 ->
          Run.main w1 = Run.ShuttingDown (Run.now w + gracePeriod)
          /\ forall tr' w2, Run.exec w1 tr' = Some w2 ->
               Run.sdNotifyCalls w2 = 0
               /\ Run.NOTIFY_SOCKET w2 = ""
               /\ Run.main w2 <> Run.Ready).
Proof.
  intros rd sock name tr w E.
  pose proof (@RunFacts.run_Inv_exec _ _ _ _ _ E) as I.
  pose proof (NotifyFacts.calls_exec _ _ E) as C. cbn in C.
  split; [exact C|]. split; [exact (RunInv.inv_calls I)|].
  split; [|split; [|split]].
  - split.
    + intros One.
      apply (NotifyFacts.announced_visits_Ready _ _ E). lia.
    + intros [tr1 [tr2 [w1 [-> [E1 M1]]]]].
      pose proof (@RunFacts.run_Inv_exec _ _ _ _ _ E1) as I1.
      destruct (RunInv.inv_ready I1 M1) as [_ C1].
      rewrite RunFacts.exec_app, E1 in E.
      pose proof (NotifyFacts.calls_exec _ _ E) as C2.
      pose proof (RunInv.inv_calls I). lia.
  - intros M. destruct (RunInv.inv_waiting I M). auto.
  - intros io w1 S.
    destruct (NotifyFacts.ready_case _ _ S) as [M [R ->]].
    split; [exact M|]. split; [exact R|]. split; [reflexivity|].
    destruct (RunInv.inv_waiting I M) as [_ Z0]. cbn.
    split; [lia | exact (RunInv.inv_socket I)].
  - intros M w1 S.
    assert (B : RunInv.shutdownBegun (Run.main w) = false)
      by (rewrite M; reflexivity).
    assert (M1 : Run.main w1 = Run.ShuttingDown (Run.now w + gracePeriod)).
    { cbn [Run.step] in S. unfold Run.mainStep in S. rewrite M in S.
      destruct (Run.sigTerm w); [discriminate|]. injection S as <-.
      reflexivity. }
    split; [exact M1|].
    intros tr' w2 E2.
    assert (B1 : RunInv.shutdownBegun (Run.main w1) = true)
      by (rewrite M1; reflexivity).
    destruct (NotifyFacts.shutdownBegun_exec _ _ B1 E2) as [B2 A2].
    pose proof (NotifyFacts.calls_exec _ _ E2) as C2.
    pose proof (NotifyFacts.calls_step _ _ S) as C1. cbn in C1.
    destruct (RunInv.inv_waiting I M) as [_ Z0].
    assert (Z2 : Run.sdNotifyCalls w2 = 0) by lia.
    split; [exact Z2|]. split.
    + assert (E' : Run.exec (Run.init rd sock name)
                     (tr ++ Run.Main Run.CaseSigTerm :: tr') = Some w2).
      { rewrite RunFacts.exec_app, E. cbn [Run.exec]. rewrite S. exact E2. }
      exact (RunInv.inv_socket_after
               (@RunFacts.run_Inv_exec _ _ _ _ _ E') Z2).
    + intros R. rewrite R in B2. discriminate.
Qed.

(** The theorem on two short sessions: the manager reports ready and the
    handshake is made once; SIGTERM comes first and it is never made. *)
Lemma readiness_announced_once_witness :
  (exists w, Run.exec (Run.init 1000 "/run/systemd/notify" "service-manager")
               [Run.ManagerStart; Run.ManagerReady;
                Run.Main (Run.CaseReady None)] = Some w
             /\ Run.sdNotifyCalls w = 1
             /\ Run.NOTIFY_SOCKET w = "/run/systemd/notify")
  /\ (exists w, Run.exec (Run.init 1000 "/run/systemd/notify" "service-manager")
                  [Run.Deliver Run.Interrupt; Run.Main Run.CaseSigTerm;
                   Run.ManagerReady] = Some w
                /\ Run.sdNotifyCalls w = 0
                /\ Run.NOTIFY_SOCKET w = "").
Proof.
  split.
  - destruct (@readiness_announced_once
                1000 "/run/systemd/notify" "service-manager"
                [Run.ManagerStart; Run.ManagerReady] _ eq_refl)
      as [_ [_ [_ [_ [H _]]]]].
    destruct (H None _ eq_refl) as [_ [_ [_ [C S]]]].
    eexists. split; [reflexivity|]. split; [exact C | exact S].
  - destruct (@readiness_announced_once
                1000 "/run/systemd/notify" "service-manager"
                [Run.Deliver Run.Interrupt] _ eq_refl)
      as [_ [_ [_ [_ [_ H]]]]].
    destruct (H eq_refl _ eq_refl) as [_ H2].
    destruct (H2 [Run.ManagerReady] _ eq_refl) as [C [S _]].
    eexists. split; [reflexivity|]. split; [exact C | exact S].
Defined.

(** C2, as stated, fails: the log can record two shutdown reasons.  The
    rotation date is one millisecond after the start.  In the first
    schedule the deadline passes and SIGTERM arrives before either
    goroutine runs: the watcher logs the rotation and cancels the run
    context, and the main goroutine, taking its signal case, logs
    "Interrupt received".  In the second SIGTERM comes first and is
    handled, the deadline passes a millisecond later, and the watcher,
    with both of its cases ready, takes the certificate case. *)
Lemma two_shutdown_reasons_recorded :
  (exists w,
      Run.exec (Run.init 1000000 "" "service-manager")
               [Run.Tick 1000000; Run.Deliver Run.SIGTERM;
                Run.Watcher Run.WCertDone; Run.Main Run.CaseSigTerm] = Some w
      /\ RunInv.reasons w = [Run.LRotation; Run.LInterrupt]
      /\ Run.log w = [Run.LStarting; Run.LRotation; Run.LInterrupt;
                      Run.LStopping])
  /\ (exists w,
         Run.exec (Run.init 1000000 "" "service-manager")
                  [Run.Deliver Run.SIGTERM; Run.Main Run.CaseSigTerm;
                   Run.Tick 1000000; Run.Watcher Run.WCertDone] = Some w
         /\ RunInv.reasons w = [Run.LInterrupt; Run.LRotation]
         /\ Run.log w = [Run.LStarting; Run.LInterrupt; Run.LStopping;
                         Run.LRotation]).
Proof.
  split; eexists; (split; [vm_compute; reflexivity|]);
    split; vm_compute; reflexivity.
Qed.

(** C2, amended.  Along any schedule the main goroutine initiates
    shutdown at most once: "Stopping services" is in the log once if the
    main goroutine has begun to shut down and not at all otherwise; the
    main goroutine logs "Interrupt received" at most once and the watcher
    its rotation message at most once; and once shutdown has begun it has
    begun for good: the run context stays cancelled, a further
    [runCancel] changes nothing, and whatever fires later adds neither a
    second "Stopping services" nor another "Interrupt received". *)
Theorem shutdown_initiated_once :
  forall (rd : Z) (sock name : string) (tr : list Run.Label) (w : Run.State),
    Run.exec (Run.init rd sock name) tr = Some w ->
    RunInv.logged RunInv.isStopping w
    = RunInv.b2n (RunInv.shutdownBegun (Run.main w))
    /\ RunInv.logged RunInv.isStopping w <= 1
    /\ RunInv.logged RunInv.isInterrupt w <= 1
    /\ RunInv.logged RunInv.isRotation w <= 1
    /\ (RunInv.shutdownBegun (Run.main w) = true ->
        Context.cancelled (Run.runCtx w) = true
        /\ Run.runCancel w = w
        /\ forall tr' w',
             Run.exec w tr' = Some w' ->
             RunInv.shutdownBegun (Run.main w') = true
             /\ Context.cancelled (Run.runCtx w') = true
             /\ RunInv.logged RunInv.isStopping w' = 1
             /\ RunInv.logged RunInv.isInterrupt w'
                = RunInv.logged RunInv.isInterrupt w).
Proof.
  intros rd sock name tr w E.
  pose proof (@RunFacts.run_Inv_exec _ _ _ _ _ E) as I.
  pose proof (RunInv.inv_log_stopping I) as L1.
  pose proof (RunInv.inv_log_interrupt I) as L2.
  pose proof (RunInv.inv_log_rotation I) as L3.
  split; [exact L1|].
  split; [rewrite L1; destruct (RunInv.shutdownBegun _); cbn; lia|].
  split; [destruct (RunInv.shutdownBegun _); cbn in L2; lia|].
  split; [destruct (RunInv.exited _); cbn in L3; lia|].
  intros B.
  pose proof (RunInv.inv_main_cancelled I B) as C.
  split; [exact C|].
  split; [exact (TriggerFacts.runCancel_idempotent _ C)|].
  intros tr' w' E'.
  destruct (@TriggerFacts.begun_log_exec _ _ _ B E') as [B' [Li Ls]].
  pose proof (@RunFacts.run_Inv_exec _ _ _ _ _
                (@ScopeFacts.reach_app _ _ _ _ _ _ _ E E')) as I'.
  split; [exact B'|].
  split; [exact (RunInv.inv_main_cancelled I' B')|].
  split; [|exact Li].
  rewrite (RunInv.inv_log_stopping I'), B'. reflexivity.
Qed.

(** The theorem on the first schedule above, continued by a second
    signal: shutdown was initiated once, and the second signal adds
    nothing to the log. *)
Lemma shutdown_initiated_once_witness :
  exists w,
    Run.exec (Run.init 1000000 "" "service-manager")
             [Run.Tick 1000000; Run.Deliver Run.SIGTERM;
              Run.Watcher Run.WCertDone; Run.Main Run.CaseSigTerm;
              Run.Deliver Run.Interrupt] = Some w
    /\ RunInv.logged RunInv.isStopping w = 1
    /\ Context.cancelled (Run.runCtx w) = true.
Proof.
  destruct (@shutdown_initiated_once
              1000000 "" "service-manager"
              [Run.Tick 1000000; Run.Deliver Run.SIGTERM;
               Run.Watcher Run.WCertDone; Run.Main Run.CaseSigTerm]
              _ eq_refl)
    as [_ [_ [_ [_ H]]]].
  destruct (H eq_refl) as [_ [_ H2]].
  destruct (H2 [Run.Deliver Run.Interrupt] _ eq_refl) as [_ [C [L _]]].
  eexists. split; [vm_compute; reflexivity|]. split; [exact L | exact C].
Defined.

(** C5, as stated, fails: the manager's run ending on its own initiates
    nothing.  [m.Run] returns an error before readiness, or after the
    main goroutine has reached [Ready]; the error is logged, neither
    context is cancelled, and neither the main goroutine nor the watcher
    has a step to take: the main goroutine stays where it was. *)
Lemma session_end_initiates_nothing :
  (exists w,
      Run.exec (Run.init 86400000000000 "" "service-manager")
               [Run.ManagerStart; Run.ManagerReturn (Some "etcd failed")]
      = Some w
      /\ Run.main w = Run.WaitingForReady
      /\ Context.Done (Run.now w) (Run.runCtx w) = false
      /\ (forall c, Run.step w (Run.Main c) = None)
      /\ (forall c, Run.step w (Run.Watcher c) = None))
  /\ (exists w,
         Run.exec (Run.init 86400000000000 "" "service-manager")
                  [Run.ManagerStart; Run.ManagerReady;
                   Run.Main (Run.CaseReady None);
                   Run.ManagerReturn (Some "etcd failed")]
         = Some w
         /\ Run.main w = Run.Ready
         /\ Context.Done (Run.now w) (Run.runCtx w) = false
         /\ (forall c, Run.step w (Run.Main c) = None)
         /\ (forall c, Run.step w (Run.Watcher c) = None)).
Proof.
  split; eexists; (split; [vm_compute; reflexivity|]);
    (split; [reflexivity|]); (split; [vm_compute; reflexivity|]);
    split; intros c; destruct c; vm_compute; reflexivity.
Qed.

(** C5, amended.  From [WaitingForReady] and from [Ready] a delivered
    signal lets the main goroutine go to [ShuttingDown]: it logs
    "Interrupt received" and "Stopping services", cancels the run context
    and arms the grace timer.  From [WaitingForReady] an elapsed rotation
    deadline does so through the watcher, which cancels the run context.
    The return of the manager's run is only logged: it enables no step of
    the main goroutine or of the watcher.  And with no signal in the
    channel, no readiness and the run context live, the main goroutine
    waits. *)
Theorem shutdown_triggers :
  forall (w : Run.State),
    Run.main w = Run.WaitingForReady \/ Run.main w = Run.Ready ->
    (forall s, exists c w2,
        Run.step (Run.deliver s w) (Run.Main c) = Some w2
        /\ Run.main w2 = Run.ShuttingDown (Run.now w + gracePeriod)
        /\ Run.log w2 = (Run.log w ++ [Run.LInterrupt; Run.LStopping])%list
        /\ Context.cancelled (Run.runCtx w2) = true)
    /\ (Run.main w = Run.WaitingForReady ->
        Run.watcher w = Run.WatcherSelect ->
        Context.Done (Run.now w) (Run.certCtx w) = true ->
        exists w1 w2,
          Run.step w (Run.Watcher Run.WCertDone) = Some w1
          /\ Run.step w1 (Run.Main Run.CaseRunDone) = Some w2
          /\ Run.main w2 = Run.ShuttingDown (Run.now w + gracePeriod)
          /\ Run.log w2 = (Run.log w ++ [Run.LRotation; Run.LStopping])%list
          /\ Context.cancelled (Run.runCtx w2) = true)
    /\ (forall err w1,
          Run.step w (Run.ManagerReturn err) = Some w1 ->
          Run.main w1 = Run.main w
          /\ Run.runCtx w1 = Run.runCtx w
          /\ forall l, RunInv.internal l = true ->
                       (Run.step w1 l = None <-> Run.step w l = None))
    /\ (Run.sigTerm w = [] ->
        Context.Done (Run.now w) (Run.runCtx w) = false ->
        Run.ready w = false \/ Run.main w = Run.Ready ->
        forall c, Run.step w (Run.Main c) = None).
Proof.
  intros w M.
  split; [|split; [|split]].
  - intros s.
    destruct (TriggerFacts.deliver_frame s w) as [Em [En [El Er]]].
    pose proof (TriggerFacts.deliver_nonempty s w) as Q.
    destruct (Run.sigTerm (Run.deliver s w)) as [|x q] eqn:Sg; [congruence|].
    destruct M as [M | M].
    + exists Run.CaseSigTerm. eexists. cbn [Run.step]. unfold Run.mainStep.
      rewrite Em, M, Sg. split; [reflexivity|]. cbn.
      rewrite En, El, <- app_assoc. auto.
    + exists Run.RecvSigTerm. eexists. cbn [Run.step]. unfold Run.mainStep.
      rewrite Em, M, Sg. split; [reflexivity|]. cbn.
      rewrite En, El, <- app_assoc. auto.
  - intros Mw W D.
    destruct (ScopeFacts.watcher_select _ W) as [HC _].
    eexists. eexists. split; [exact (HC D)|].
    cbn [Run.step]. unfold Run.mainStep. cbn. rewrite Mw. cbn.
    split; [reflexivity|]. cbn. rewrite <- app_assoc. auto.
  - intros err w1 S.
    destruct (@TriggerFacts.managerReturn_frame _ _ _ S)
      as [E1 [E2 [E3 [E4 [E5 [E6 [E7 E8]]]]]]].
    split; [exact E1|]. split; [exact E4|].
    intros l Hl.
    exact (@TriggerFacts.internal_enabled w w1 l E1 E2 E3 E4 E5 E6 E7 E8 Hl).
  - intros Q D R c. cbn [Run.step]. unfold Run.mainStep.
    destruct M as [M | M]; rewrite M; destruct c; try reflexivity;
      rewrite ?Q, ?D; try reflexivity.
    destruct R as [-> | R]; [reflexivity | congruence].
Qed.

(** The theorem at the start of a session: SIGTERM before readiness takes
    the main goroutine into shutdown, sixty seconds of grace ahead. *)
Lemma shutdown_triggers_witness :
  exists c w2,
    Run.step (Run.deliver Run.SIGTERM
                (Run.init 86400000000000 "" "service-manager"))
             (Run.Main c) = Some w2
    /\ Run.main w2 = Run.ShuttingDown 60000000000
    /\ Run.log w2 = [Run.LStarting; Run.LInterrupt; Run.LStopping].
Proof.
  destruct (@shutdown_triggers
              (Run.init 86400000000000 "" "service-manager")
              (or_introl eq_refl))
    as [H _].
  destruct (H Run.SIGTERM) as [c [w2 [S [M [L _]]]]].
  exists c, w2. split; [exact S|]. split; [exact M | exact L].
Defined.

(** From [Ready] the main goroutine waits for a signal only: after the
    rotation deadline the watcher cancels the run context, yet the main
    goroutine has no step until a signal arrives.  (The amended C5 says
    nothing about this case.) *)
Lemma Ready_waits_for_signal_only :
  exists w,
    Run.exec (Run.init 1000000 "" "service-manager")
             [Run.ManagerStart; Run.ManagerReady;
              Run.Main (Run.CaseReady None);
              Run.Tick 1000000; Run.Watcher Run.WCertDone] = Some w
    /\ Run.main w = Run.Ready
    /\ Context.cancelled (Run.runCtx w) = true
    /\ forall c, Run.step w (Run.Main c) = None.
Proof.
  eexists. split; [vm_compute; reflexivity|]. split; [reflexivity|].
  split; [reflexivity|]. intros c; destruct c; vm_compute; reflexivity.
Qed.

(** * Package [config] *)

Module ConfigFacts.

Import Config.

Lemma matchesAny_In (value : string) (elements : list string) :
  matchesAny value elements = true <-> In value elements.
Proof.
  induction elements as [|e es IH]; cbn.
  - split; [discriminate | contradiction].
  - destruct (String.eqb_spec value e) as [E | E].
    + split; auto.
    + rewrite IH. split; [auto | intros [E' | H]; [congruence | exact H]].
Qed.

Lemma stringSliceContains_iff (list elements : list string) :
  stringSliceContains list elements = true
  <-> exists x, In x list /\ In x elements.
Proof.
  induction list as [|v l IH]; cbn.
  - split; [discriminate | intros [x [[] _]]].
  - destruct (matchesAny v elements) eqn:M.
    + apply matchesAny_In in M. split; [|reflexivity].
      intros _. exists v. auto.
    + rewrite IH. split.
      * intros [x [H1 H2]]. exists x. auto.
      * intros [x [[<- | H1] H2]].
        -- apply matchesAny_In in H2. congruence.
        -- exists x. auto.
Qed.

End ConfigFacts.

(** X1.  [stringSliceContains list elements] is true exactly when some
    string is both in [list] and among [elements]; so the two arguments
    can be exchanged, and the result is false when either is empty. *)
Theorem stringSliceContains_shared :
  forall (list elements : list string),
    (Config.stringSliceContains list elements = true
     <-> exists x, In x list /\ In x elements)
    /\ Config.stringSliceContains list elements
       = Config.stringSliceContains elements list
    /\ Config.stringSliceContains list [] = false
    /\ Config.stringSliceContains [] elements = false.
Proof.
  intros list elements.
  split; [apply ConfigFacts.stringSliceContains_iff|].
  split; [|split].
  - destruct (Config.stringSliceContains list elements) eqn:A;
      destruct (Config.stringSliceContains elements list) eqn:B;
      try reflexivity.
    + apply ConfigFacts.stringSliceContains_iff in A as [x [H1 H2]].
      assert (C : Config.stringSliceContains elements list = true)
        by (apply ConfigFacts.stringSliceContains_iff; eauto).
      congruence.
    + apply ConfigFacts.stringSliceContains_iff in B as [x [H1 H2]].
      assert (C : Config.stringSliceContains list elements = true)
        by (apply ConfigFacts.stringSliceContains_iff; eauto).
      congruence.
  - destruct (Config.stringSliceContains list []) eqn:A; [|reflexivity].
    apply ConfigFacts.stringSliceContains_iff in A as [x [_ []]].
  - reflexivity.
Qed.

(** X2.  [StringInList s list] is true exactly when [s] is a member of
    [list], and it agrees with [stringSliceContains list s]. *)
Theorem StringInList_member :
  forall (s : string) (list : list string),
    (Config.StringInList s list = true <-> In s list)
    /\ Config.StringInList s list = Config.stringSliceContains list [s].
Proof.
  intros s list.
  assert (E : Config.StringInList s list = Config.stringSliceContains list [s]).
  { induction list as [|x l IH]; cbn; [reflexivity|].
    destruct (String.eqb x s); [reflexivity | exact IH]. }
  split; [|exact E].
  rewrite E, ConfigFacts.stringSliceContains_iff. split.
  - intros [x [H1 [<- | []]]]. exact H1.
  - intros H. exists s. cbn. auto.
Qed.

(** X3.  [findConfigFile] returns the empty string or a path that
    [os.Stat] did not report missing; the user's file has priority: another
    result means it was reported missing; and a stat error other than
    "does not exist" on the user's file selects it all the same. *)
Theorem findConfigFile_result :
  forall (Expand : string -> string) (Stat : string -> Config.StatErr),
    let user := Expand Config.defaultUserConfigFile in
    let r := Config.findConfigFile Expand Stat in
    (r = "" \/ Config.IsNotExist (Stat r) = false)
    /\ (r = user \/ r = Config.defaultGlobalConfigFile \/ r = "")
    /\ (r <> user -> Stat user = Config.StatNotExist)
    /\ (r = "" -> user <> "" ->
        Stat user = Config.StatNotExist
        /\ Stat Config.defaultGlobalConfigFile = Config.StatNotExist)
    /\ (forall e, Stat user = Config.StatOther e -> r = user).
Proof.
  intros Expand Stat user r. unfold r, Config.findConfigFile. fold user.
  destruct (Stat user) eqn:U; cbn.
  - split; [right; rewrite U; reflexivity|].
    split; [now left|]. split; [congruence|].
    split; [congruence | discriminate].
  - destruct (Stat Config.defaultGlobalConfigFile) eqn:G; cbn.
    + split; [right; rewrite G; reflexivity|].
      split; [right; now left|]. split; [reflexivity|].
      split; [discriminate | discriminate].
    + split; [now left|].
      split; [right; now right|]. split; [reflexivity|].
      split; [auto | discriminate].
    + split; [right; rewrite G; reflexivity|].
      split; [right; now left|]. split; [reflexivity|].
      split; [discriminate | discriminate].
  - split; [right; rewrite U; reflexivity|].
    split; [now left|]. split; [congruence|].
    split; [congruence | reflexivity].
Qed.

(** X4.  [findDataDir] gives every non-root user the user data directory,
    whether it exists or not; root gets the global data directory exactly
    when the user data directory is reported missing (any other stat
    result selects the user data directory). *)
Theorem findDataDir_result :
  forall (Expand : string -> string) (Stat : string -> Config.StatErr)
         (Geteuid : Z),
    let user := Expand Config.defaultUserDataDir in
    let d := Config.findDataDir Expand Stat Geteuid in
    ((0 < Geteuid)%Z -> d = user)
    /\ ((Geteuid <= 0)%Z -> Stat user = Config.StatNotExist ->
        d = Config.defaultGlobalDataDir)
    /\ (Stat user <> Config.StatNotExist -> d = user)
    /\ (d = user \/ d = Config.defaultGlobalDataDir).
Proof.
  intros Expand Stat Geteuid user d. unfold d, Config.findDataDir. fold user.
  destruct (Stat user) eqn:U; cbn;
    try (repeat split; auto; congruence).
  destruct (0 <? Geteuid)%Z eqn:E.
  - repeat split; auto. apply Z.ltb_lt in E. lia.
  - apply Z.ltb_ge in E. repeat split; auto; try lia; congruence.
Qed.

(** The theorem for root on a host with no user data directory. *)
Lemma findDataDir_result_witness :
  Config.findDataDir (fun _ => "/root/.microshift/data")
                     (fun _ => Config.StatNotExist) 0
  = "/var/lib/microshift".
Proof.
  apply (@findDataDir_result (fun _ => "/root/.microshift/data")
                             (fun _ => Config.StatNotExist) 0);
    [lia | reflexivity].
Defined.

Module CmdLineFacts.

Import Config ConfigInv.

Section Flags.

Variable Atoi : string -> Z.
Variable ValueString : FlagValue -> string.

Lemma fromStringFlag_override flags name set c :
  fromStringFlag flags name set c
  = match stringOverride flags name with
    | Some s => set s c
    | None => c
    end.
Proof.
  unfold fromStringFlag, stringOverride.
  destruct (GetString flags name); [|reflexivity].
  destruct (Changed flags name); reflexivity.
Qed.

(** [ReadFromCmdLine], field by field. *)
Lemma ReadFromCmdLine_fields c flags :
  ReadFromCmdLine Atoi ValueString c flags
  = (mkConfig
       (pick (levelOverride Atoi ValueString flags) (LogVLevel c))
       (pick (sliceOverride flags "subject-alt-names") (SubjectAltNames c))
       (pick (stringOverride flags "node-name") (NodeName c))
       (pick (stringOverride flags "node-ip") (NodeIP c))
       (mkCluster
          (pick (stringOverride flags "url") (URL (Cluster c)))
          (pick (stringOverride flags "cluster-cidr") (ClusterCIDR (Cluster c)))
          (pick (stringOverride flags "service-cidr") (ServiceCIDR (Cluster c)))
          (pick (stringOverride flags "service-node-port-range")
                (ServiceNodePortRange (Cluster c)))
          (DNS (Cluster c))
          (pick (stringOverride flags "cluster-domain") (Domain (Cluster c))))
       (Ingress c),
     None).
Proof.
  unfold ReadFromCmdLine. rewrite !fromStringFlag_override.
  assert (E1 : match flags "v" with
               | Some f => if Changed flags "v"
                           then setLogVLevel (Atoi (ValueString (Value f))) c
                           else c
               | None => c
               end
               = match levelOverride Atoi ValueString flags with
                 | Some v => setLogVLevel v c
                 | None => c
                 end).
  { unfold levelOverride. destruct (flags "v"); [|reflexivity].
    destruct (Changed flags "v"); reflexivity. }
  rewrite E1. clear E1.
  generalize (levelOverride Atoi ValueString flags) as o1.
  intros o1.
  assert (E2 : forall c1,
             match GetStringSlice flags "subject-alt-names" with
             | Some s => if Changed flags "subject-alt-names"
                         then setSubjectAltNames s c1 else c1
             | None => c1
             end
             = match sliceOverride flags "subject-alt-names" with
               | Some s => setSubjectAltNames s c1
               | None => c1
               end).
  { intros c1. unfold sliceOverride.
    destruct (GetStringSlice flags "subject-alt-names"); [|reflexivity].
    destruct (Changed flags "subject-alt-names"); reflexivity. }
  rewrite E2. clear E2.
  destruct c as [lv san nn ip [u cc sc pr dns dom] ing].
  destruct o1, (sliceOverride flags "subject-alt-names"),
    (stringOverride flags "node-name"), (stringOverride flags "node-ip"),
    (stringOverride flags "url"), (stringOverride flags "cluster-cidr"),
    (stringOverride flags "service-cidr"),
    (stringOverride flags "service-node-port-range"),
    (stringOverride flags "cluster-domain"); reflexivity.
Qed.



End Flags.

End CmdLineFacts.



Section Validation.

Import Config ConfigInv.

Variable IPNet : Type.
Variable ParseCIDR : string -> IPNet + string.
Variable cidrHost : IPNet -> Z -> string + string.
Variable ServiceIPRange : IPNet -> string + string.
Variable urlParseHost : string -> string + string.
Variable ReadFile : string -> list Byte.byte + string.
Variable yamlUnmarshal :
  list Byte.byte -> MicroshiftConfig -> MicroshiftConfig * option string.
Variable envconfigProcess :
  MicroshiftConfig -> MicroshiftConfig * option string.
Variable Atoi : string -> Z.
Variable ValueString : FlagValue -> string.

#[local] Abbreviation ReadAndValidate' :=
  (ReadAndValidate ParseCIDR cidrHost ServiceIPRange urlParseHost ReadFile
                   yamlUnmarshal envconfigProcess Atoi ValueString).
#[local] Abbreviation validate' :=
  (validate ParseCIDR cidrHost ServiceIPRange urlParseHost).
#[local] Abbreviation validateSubjectAltNames' :=
  (validateSubjectAltNames ParseCIDR ServiceIPRange urlParseHost).
#[local] Abbreviation getClusterDNS' := (getClusterDNS ParseCIDR cidrHost).

Lemma not_contains_In (l es : list string) :
  stringSliceContains l es = false ->
  forall x, In x es -> ~ In x l.
Proof.
  intros F x Hx Hl.
  assert (T : stringSliceContains l es = true)
    by (apply ConfigFacts.stringSliceContains_iff; eauto).
  congruence.
Qed.

(** What [validateURL] has checked when it lets a configuration pass. *)
Lemma validateURL_Return c c' e :
  validateURL urlParseHost c = Return c' e ->
  c' = c /\ e = None
  /\ urlParseHost (URL (Cluster c)) = inl (NodeName c)
  /\ In (NodeName c) (SubjectAltNames c).
Proof.
  unfold validateURL.
  destruct (urlParseHost (URL (Cluster c))) as [host | err]; [|discriminate].
  destruct (stringSliceContains (SubjectAltNames c) [host]) eqn:S;
    cbn; [|discriminate].
  destruct (String.eqb_spec host (NodeName c)) as [E | E]; cbn; [|discriminate].
  intros R. injection R as <- <-. subst host.
  repeat split.
  apply ConfigFacts.stringSliceContains_iff in S as [x [H1 [<- | []]]].
  exact H1.
Qed.

Lemma validateSubjectAltNames_Return c c' e :
  validateSubjectAltNames' c = Return c' e ->
  c' = c /\ e = None
  /\ urlParseHost (URL (Cluster c)) = inl (NodeName c)
  /\ In (NodeName c) (SubjectAltNames c)
  /\ stringSliceContains (SubjectAltNames c)
       ["localhost"; "127.0.0.1"; NodeIP c] = false
  /\ exists svcNet ip,
       ParseCIDR (ServiceCIDR (Cluster c)) = inl svcNet
       /\ ServiceIPRange svcNet = inl ip
       /\ stringSliceContains (SubjectAltNames c)
            (apiserverNames ++ [ip])%list = false.
Proof.
  unfold validateSubjectAltNames.
  destruct (SubjectAltNames c) as [|n ns] eqn:SAN.
  - cbn [List.length Nat.ltb Nat.leb]. intros R.
    apply validateURL_Return in R as [_ [_ [_ H]]].
    rewrite SAN in H. destruct H.
  - cbn [List.length Nat.ltb Nat.leb]. rewrite <- SAN.
    destruct (stringSliceContains (SubjectAltNames c)
                ["localhost"; "127.0.0.1"; NodeIP c]) eqn:L; [discriminate|].
    destruct (ParseCIDR (ServiceCIDR (Cluster c))) as [svcNet | err];
      [|discriminate].
    destruct (ServiceIPRange svcNet) as [ip | err] eqn:IP; [|discriminate].
    destruct (stringSliceContains (SubjectAltNames c)
                (apiserverNames ++ [ip])%list) eqn:A; [discriminate|].
    intros R. apply validateURL_Return in R as [-> [-> [U H]]].
    repeat split; auto. exists svcNet, ip. auto.
Qed.

Lemma validate_Return c c' e :
  validate' c = Return c' e ->
  e = None
  /\ exists dns, getClusterDNS' (ServiceCIDR (Cluster c)) = inl dns
                 /\ c' = setDNS dns c
                 /\ validateSubjectAltNames' (setDNS dns c) = Return c' e.
Proof.
  unfold validate.
  destruct (getClusterDNS' (ServiceCIDR (Cluster c))) as [dns | err];
    [|discriminate].
  intros R. pose proof R as R'.
  apply validateSubjectAltNames_Return in R as [-> [-> _]].
  split; [reflexivity|]. exists dns. auto.
Qed.

Lemma validate_no_nil_dereference c : validate' c <> NilDereference.
Proof.
  unfold validate, getClusterDNS.
  destruct (ParseCIDR (ServiceCIDR (Cluster c))) as [service | err] eqn:P;
    [|discriminate].
  destruct (cidrHost service 10) as [dns | err]; [|discriminate].
  unfold validateSubjectAltNames, validateURL. cbn. rewrite P.
  repeat match goal with
         | |- context [match ?x with _ => _ end] => destruct x
         end; discriminate.
Qed.

(** The configuration [ReadAndValidate] validates is the one the command
    line was applied to last. *)
Lemma ReadAndValidate_validates c configFile flags :
  (exists c1 e, ReadAndValidate' c configFile flags = Return c1 (Some e)
                /\ isReadError e = true
                /\ (configFile = "" -> exists err, e = ErrEnv err))
  \/ (exists c2,
         ReadAndValidate' c configFile flags
         = validate' (fst (ReadFromCmdLine Atoi ValueString c2 flags))).
Proof.
  unfold ReadAndValidate.
  assert (F : forall c0,
             (if String.eqb configFile "" then (c0, None)
              else ReadFromConfigFile ReadFile yamlUnmarshal c0 configFile)
             = (if String.eqb configFile "" then (c0, None)
                else ReadFromConfigFile ReadFile yamlUnmarshal c0 configFile))
    by reflexivity.
  destruct (if String.eqb configFile "" then (c, None)
            else ReadFromConfigFile ReadFile yamlUnmarshal c configFile)
    as [c1 [e1|]] eqn:R1.
  - left. exists c1, e1. split; [reflexivity|].
    destruct (String.eqb_spec configFile "") as [E | E]; [discriminate|].
    unfold ReadFromConfigFile in R1.
    destruct (ReadFile configFile) as [contents | err].
    + destruct (yamlUnmarshal contents c) as [c0 [err|]];
        [|discriminate]. injection R1 as <- <-.
      split; [reflexivity | contradiction].
    + injection R1 as <- <-. split; [reflexivity | contradiction].
  - unfold ReadFromEnv.
    destruct (envconfigProcess c1) as [c2 [err|]].
    + left. exists c2, (ErrEnv err). split; [reflexivity|].
      split; [reflexivity | eauto].
    + right. exists c2.
      rewrite (CmdLineFacts.ReadFromCmdLine_fields Atoi ValueString c2 flags).
      reflexivity.
Qed.

(** X6.  When [ReadAndValidate] returns nil, the configuration it leaves
    has the node name among its subject alternative names (so these are not
    empty), the host of the cluster URL is the node name, the cluster DNS
    address is the one computed from the service CIDR, and the subject
    alternative names hold neither localhost, 127.0.0.1, the node IP, nor
    a name or the IP of the apiserver service. *)
Theorem ReadAndValidate_accepts :
  forall (c : MicroshiftConfig) (configFile : string) (flags : FlagSet)
         (c' : MicroshiftConfig),
    ReadAndValidate' c configFile flags = Return c' None ->
    In (NodeName c') (SubjectAltNames c')
    /\ SubjectAltNames c' <> []
    /\ urlParseHost (URL (Cluster c')) = inl (NodeName c')
    /\ getClusterDNS' (ServiceCIDR (Cluster c')) = inl (DNS (Cluster c'))
    /\ ~ In "localhost" (SubjectAltNames c')
    /\ ~ In "127.0.0.1" (SubjectAltNames c')
    /\ ~ In (NodeIP c') (SubjectAltNames c')
    /\ (forall n, In n apiserverNames -> ~ In n (SubjectAltNames c'))
    /\ (exists svcNet ip,
           ParseCIDR (ServiceCIDR (Cluster c')) = inl svcNet
           /\ ServiceIPRange svcNet = inl ip
           /\ ~ In ip (SubjectAltNames c')).
Proof.
  intros c configFile flags c' R.
  destruct (ReadAndValidate_validates c configFile flags)
    as [[c1 [e [R1 _]]] | [c2 R2]]; [congruence|].
  rewrite R2 in R.
  apply validate_Return in R as [_ [dns [D [E V]]]].
  apply validateSubjectAltNames_Return in V
    as [_ [_ [U [H [L [svcNet [ip [P [I A]]]]]]]]].
  rewrite <- E in U, H, L, P, A.
  assert (SC : ServiceCIDR (Cluster c')
               = ServiceCIDR
                   (Cluster (fst (ReadFromCmdLine Atoi ValueString c2 flags))))
    by (rewrite E; reflexivity).
  assert (DN : DNS (Cluster c') = dns) by (rewrite E; reflexivity).
  split; [exact H|].
  split; [intros N; rewrite N in H; destruct H|].
  split; [exact U|].
  split; [rewrite SC, DN; exact D|].
  pose proof (not_contains_In _ _ L) as NL.
  pose proof (not_contains_In _ _ A) as NA.
  split; [apply NL; cbn; auto|].
  split; [apply NL; cbn; auto|].
  split; [apply NL; cbn; auto|].
  split; [intros n Hn; apply NA, in_or_app; now left|].
  exists svcNet, ip. split; [exact P|]. split; [exact I|].
  apply NA, in_or_app. right. cbn. auto.
Qed.

(** X7.  [ReadAndValidate] never dereferences a nil service network (the
    CIDR whose parse error it drops has been parsed before); an error it
    returns comes from reading the configuration file or the environment,
    never from validation, which ends the process instead; and with an
    empty [configFile] no file is read: the only error is the
    environment's. *)
Theorem ReadAndValidate_failures :
  forall (c : MicroshiftConfig) (configFile : string) (flags : FlagSet),
    ReadAndValidate' c configFile flags <> NilDereference
    /\ (forall c' e, ReadAndValidate' c configFile flags = Return c' (Some e) ->
          isReadError e = true)
    /\ (configFile = "" ->
        forall c' e, ReadAndValidate' c configFile flags = Return c' (Some e) ->
          exists err, e = ErrEnv err).
Proof.
  intros c configFile flags.
  destruct (ReadAndValidate_validates c configFile flags)
    as [[c1 [e [R1 [RE EV]]]] | [c2 R2]].
  - rewrite R1. split; [discriminate|]. split.
    + intros c' e' E. injection E as <- <-. exact RE.
    + intros F c' e' E. injection E as <- <-. exact (EV F).
  - rewrite R2. split; [apply validate_no_nil_dereference|]. split.
    + intros c' e E. apply validate_Return in E as [E _]. discriminate.
    + intros _ c' e E. apply validate_Return in E as [E _]. discriminate.
Qed.


End Validation.

(** The theorem X6 in the sample environment: a host whose defaults the
    command line replaces by the name "edge-1" is accepted. *)
Lemma ReadAndValidate_accepts_witness :
  In "edge-1"
     (Config.SubjectAltNames
        (Config.setDNS "10.43.0.10"
           (fst (Config.ReadFromCmdLine (fun _ => 0%Z) (fun _ => "")
                   (Config.NewMicroshiftConfig "localhost.localdomain"
                      "192.168.1.5" ["localhost.localdomain"])
                   ConfigInv.sampleFlags)))).
Proof.
  assert (R : ConfigInv.sampleReadAndValidate
                (Config.NewMicroshiftConfig "localhost.localdomain"
                   "192.168.1.5" ["localhost.localdomain"])
                ConfigInv.sampleFlags
              = Config.Return
                  (Config.setDNS "10.43.0.10"
                     (fst (Config.ReadFromCmdLine (fun _ => 0%Z) (fun _ => "")
                             (Config.NewMicroshiftConfig "localhost.localdomain"
                                "192.168.1.5" ["localhost.localdomain"])
                             ConfigInv.sampleFlags)))
                  None)
    by (vm_compute; reflexivity).
  exact (proj1 (@ReadAndValidate_accepts _ _ _ _ _ _ _ _ _ _ _ _ _ _ R)).
Defined.


(** ** Host names *)

Module HostnameFacts.

Import Config ConfigInv.

Lemma compare_Lt_lt x y : String.compare x y = Lt <-> String_as_OT.lt x y.
Proof. exact (String_as_OT.cmp_lt x y). Qed.

Lemma compare_Gt_lt x y : String.compare x y = Gt -> String_as_OT.lt y x.
Proof.
  intros G. apply compare_Lt_lt. rewrite String.compare_antisym, G.
  reflexivity.
Qed.

Lemma Insert_In x y set : In x (Insert y set) <-> x = y \/ In x set.
Proof.
  induction set as [|z rest IH]; cbn.
  - intuition.
  - destruct (String.compare y z) eqn:C; cbn.
    + apply String.compare_eq_iff in C. subst z. intuition.
    + intuition.
    + rewrite IH. intuition.
Qed.

Lemma Insert_HdRel x y rest :
  String_as_OT.lt y x -> HdRel String_as_OT.lt y rest ->
  HdRel String_as_OT.lt y (Insert x rest).
Proof.
  intros L H. destruct rest as [|z r]; cbn.
  - constructor. exact L.
  - inversion H; subst.
    destruct (String.compare x z); constructor; assumption.
Qed.

(** Inserting keeps the set strictly increasing. *)
Lemma Insert_Sorted x set :
  Sorted String_as_OT.lt set -> Sorted String_as_OT.lt (Insert x set).
Proof.
  induction set as [|y rest IH]; cbn; intros S.
  - repeat constructor.
  - inversion S; subst.
    destruct (String.compare x y) eqn:C.
    + exact S.
    + constructor; [exact S|]. constructor. now apply compare_Lt_lt.
    + constructor; [now apply IH|].
      apply Insert_HdRel; [now apply compare_Gt_lt | assumption].
Qed.

Lemma NewString_from items : forall set,
  Sorted String_as_OT.lt set ->
  Sorted String_as_OT.lt (fold_left (fun s x => Insert x s) items set)
  /\ forall x, In x (fold_left (fun s x => Insert x s) items set)
               <-> In x items \/ In x set.
Proof.
  induction items as [|i items IH]; cbn; intros set S.
  - split; [exact S | intuition].
  - destruct (IH (Insert i set) (Insert_Sorted i S)) as [S' M].
    split; [exact S'|]. intros x. rewrite M, Insert_In. intuition.
Qed.

Lemma NewString_Sorted items : Sorted String_as_OT.lt (NewString items).
Proof. apply NewString_from. constructor. Qed.

Lemma NewString_In items x : In x (NewString items) <-> In x items.
Proof.
  unfold NewString.
  destruct (NewString_from items (set := [])) as [_ M]; [constructor|].
  rewrite M. cbn. intuition.
Qed.

Lemma lt_irrefl x : ~ String_as_OT.lt x x.
Proof. intros L. exact (@String_as_OT.lt_not_eq x x L eq_refl). Qed.

(** A strictly increasing list has no duplicates. *)
Lemma Sorted_NoDup l : Sorted String_as_OT.lt l -> NoDup l.
Proof.
  intros S. apply Sorted_StronglySorted in S;
    [|intros a b c; apply String_as_OT.lt_trans].
  induction S as [|a l S IH F]; constructor; [|exact IH].
  intros Hin. rewrite Forall_forall in F.
  exact (lt_irrefl (F a Hin)).
Qed.

Lemma Split_nonempty sep s : Split sep s <> [].
Proof.
  destruct s as [|a s']; cbn; [discriminate|].
  destruct (Ascii.eqb a sep); [discriminate|].
  destruct (Split sep s'); discriminate.
Qed.

(** No field of a split contains the separator. *)
Lemma Split_fields sep s :
  forall f, In f (Split sep s) -> hasByte sep f = false.
Proof.
  induction s as [|a s' IH]; cbn; intros f Hin.
  - destruct Hin as [<- | []]. reflexivity.
  - destruct (Ascii.eqb a sep) eqn:E.
    + destruct Hin as [<- | Hin]; [reflexivity | now apply IH].
    + destruct (Split sep s') as [|field rest] eqn:Sp.
      * destruct Hin as [<- | []]. cbn. rewrite E. reflexivity.
      * destruct Hin as [<- | Hin].
        -- cbn. rewrite E. cbn. apply IH. now left.
        -- apply IH. now right.
Qed.

Lemma dropLast_None s : dropLast s = None <-> s = "".
Proof.
  split; [|intros ->; reflexivity].
  induction s as [|a s' IH]; [reflexivity|]. cbn.
  destruct s' as [|b s'']; [discriminate|].
  destruct (dropLast (String b s'')); [discriminate|].
  intros _. discriminate IH; reflexivity.
Qed.

Lemma dropLast_snoc s c : dropLast (s ++ String c "") = Some s.
Proof.
  induction s as [|a s' IH]; [reflexivity|].
  cbn [append dropLast]. rewrite IH.
  destruct (s' ++ String c "") eqn:E; [|reflexivity].
  destruct s'; discriminate.
Qed.

Lemma append_assoc (a b c : string) : ((a ++ b) ++ c = a ++ (b ++ c))%string.
Proof. induction a as [|x a IH]; cbn; congruence. Qed.

Lemma hostnameLine_spaced names :
  hostnameLine names = (spaced names ++ String "010" "")%string.
Proof.
  induction names as [|n rest IH]; cbn; [reflexivity|].
  rewrite IH, append_assoc. reflexivity.
Qed.

Lemma TrimRight_snoc c s : TrimRight c (s ++ String c "") = TrimRight c s.
Proof.
  induction s as [|a s' IH]; cbn.
  - rewrite Ascii.eqb_refl. reflexivity.
  - rewrite IH. reflexivity.
Qed.

Lemma TrimRight_noop c s : hasByte c s = false -> TrimRight c s = s.
Proof.
  induction s as [|a s' IH]; cbn; [reflexivity|].
  intros H. apply orb_false_elim in H as [A H].
  rewrite (IH H), A. destruct s'; reflexivity.
Qed.

Lemma TrimRight_app c p x :
  TrimRight c x <> "" -> TrimRight c (p ++ x) = (p ++ TrimRight c x)%string.
Proof.
  intros N. induction p as [|a p' IH]; cbn; [reflexivity|].
  rewrite IH. destruct (p' ++ TrimRight c x)%string eqn:E; [|reflexivity].
  destruct p'; cbn in E; [contradiction | discriminate].
Qed.

Lemma TrimLeft_noop c a s :
  Ascii.eqb a c = false -> TrimLeft c (String a s) = String a s.
Proof. intros E. cbn. rewrite E. reflexivity. Qed.

Lemma isName_head n :
  isName n -> exists a n', n = String a n' /\ Ascii.eqb a " " = false.
Proof.
  intros [N H]. destruct n as [|a n']; [contradiction|].
  cbn in H. apply orb_false_elim in H as [A _]. eauto.
Qed.

Lemma joinSpaces_nonempty n rest : isName n -> joinSpaces (n :: rest) <> "".
Proof.
  intros I. destruct (isName_head I) as [a [n' [-> _]]].
  destruct rest; cbn; discriminate.
Qed.

Lemma TrimRight_spaced names :
  Forall isName names -> TrimRight " " (spaced names) = joinSpaces names.
Proof.
  induction 1 as [|n rest I F IH]; [reflexivity|].
  destruct rest as [|m r].
  - cbn [spaced joinSpaces]. rewrite TrimRight_snoc.
    apply TrimRight_noop. apply I.
  - change (spaced (n :: m :: r))
      with (n ++ (String " " "" ++ spaced (m :: r)))%string.
    change (joinSpaces (n :: m :: r))
      with (n ++ String " " (joinSpaces (m :: r)))%string.
    inversion F; subst.
    assert (NE : joinSpaces (m :: r) <> "") by now apply joinSpaces_nonempty.
    rewrite TrimRight_app.
    + f_equal. rewrite TrimRight_app by (rewrite IH; exact NE).
      rewrite IH. reflexivity.
    + rewrite TrimRight_app by (rewrite IH; exact NE).
      discriminate.
Qed.

Lemma Trim_spaced names :
  Forall isName names -> Trim " " (spaced names) = joinSpaces names.
Proof.
  intros F. unfold Trim.
  destruct names as [|n rest]; [reflexivity|].
  inversion F; subst.
  destruct (isName_head H1) as [a [n' [E A]]].
  assert (L : TrimLeft " " (spaced (n :: rest)) = spaced (n :: rest)).
  { cbn [spaced]. rewrite E. cbn [append]. apply TrimLeft_noop. exact A. }
  rewrite L. now apply TrimRight_spaced.
Qed.

Lemma Split_nosep sep n : hasByte sep n = false -> Split sep n = [n].
Proof.
  induction n as [|a n' IH]; cbn; [reflexivity|].
  intros H. apply orb_false_elim in H as [A H].
  rewrite A, (IH H). reflexivity.
Qed.

Lemma Split_app sep n rest :
  hasByte sep n = false ->
  Split sep (n ++ String sep rest) = n :: Split sep rest.
Proof.
  induction n as [|a n' IH]; cbn.
  - intros _. rewrite Ascii.eqb_refl. reflexivity.
  - intros H. apply orb_false_elim in H as [A H].
    rewrite A, (IH H). reflexivity.
Qed.

Lemma Split_joinSpaces names :
  names <> [] -> Forall isName names ->
  Split " " (joinSpaces names) = names.
Proof.
  intros N F. induction F as [|n rest I F IH]; [contradiction|].
  destruct rest as [|m r].
  - cbn [joinSpaces]. apply Split_nosep. apply I.
  - change (joinSpaces (n :: m :: r))
      with (n ++ String " " (joinSpaces (m :: r)))%string.
    rewrite Split_app by apply I.
    rewrite IH by discriminate. reflexivity.
Qed.

End HostnameFacts.

(** X9.  When [getAllHostnames] returns names, they are strictly
    increasing in byte order, so none occurs twice; there is at least
    one; none contains a space; and they are exactly the fields, separated
    by single spaces, of the command's output without its last byte and
    without leading and trailing spaces. *)
Theorem getAllHostnames_names :
  forall (out : string) (names : list string),
    Config.getAllHostnames out None = Config.Names names ->
    Sorted String_as_OT.lt names
    /\ NoDup names
    /\ names <> []
    /\ (forall x, In x names -> ConfigInv.hasByte " " x = false)
    /\ exists s, Config.dropLast out = Some s
                 /\ forall x, In x names
                              <-> In x (Config.Split " " (Config.Trim " " s)).
Proof.
  intros out names R. unfold Config.getAllHostnames in R.
  destruct (Config.dropLast out) as [s|] eqn:D; [|discriminate].
  injection R as <-.
  pose proof (HostnameFacts.NewString_Sorted
                (Config.Split " " (Config.Trim " " s))) as S.
  split; [exact S|]. split; [now apply HostnameFacts.Sorted_NoDup|].
  split; [|split].
  - intros E.
    destruct (Config.Split " " (Config.Trim " " s)) as [|f fs] eqn:Sp.
    + exact (HostnameFacts.Split_nonempty _ _ Sp).
    + assert (H : In f (Config.NewString (f :: fs)))
        by (apply HostnameFacts.NewString_In; now left).
      rewrite E in H. destruct H.
  - intros x Hx. apply (proj1 (HostnameFacts.NewString_In _ _)) in Hx.
    exact (HostnameFacts.Split_fields _ _ _ Hx).
  - exists s. split; [reflexivity|]. intros x.
    apply HostnameFacts.NewString_In.
Qed.

(** The theorem for output that is one blank line: the single name
    returned is the empty string. *)
Lemma getAllHostnames_names_witness :
  Config.getAllHostnames (String "010" "") None = Config.Names [""]
  /\ NoDup [""].
Proof.
  split; [reflexivity|].
  apply (@getAllHostnames_names (String "010" "") [""] eq_refl).
Defined.

(** X10.  [getAllHostnames] returns the command's error exactly when the
    command failed; it panics on the slice exactly when the command
    succeeded and printed nothing; and for any other output it returns
    names. *)
Theorem getAllHostnames_failures :
  forall (out : string),
    (forall e, Config.getAllHostnames out (Some e) = Config.HostnameError e)
    /\ (Config.getAllHostnames out None = Config.SlicePanic <-> out = "")
    /\ (out <> "" -> exists names,
           Config.getAllHostnames out None = Config.Names names)
    /\ (forall e, Config.getAllHostnames out None <> Config.HostnameError e).
Proof.
  intros out. unfold Config.getAllHostnames.
  split; [reflexivity|].
  destruct (Config.dropLast out) as [s|] eqn:D.
  - assert (N : out <> "").
    { intros E. apply HostnameFacts.dropLast_None in E. congruence. }
    split; [split; [discriminate | contradiction]|].
    split; [eauto | discriminate].
  - apply HostnameFacts.dropLast_None in D.
    split; [split; auto|]. split; [contradiction | discriminate].
Qed.

(** X11.  For the line [hostname -A] prints for a list of names (each
    followed by a space, then a newline), [getAllHostnames] returns the
    set of those names in increasing order: a name is in the result exactly
    when it is in the list, and repetitions are gone. *)
Theorem getAllHostnames_hostnameLine :
  forall (names : list string),
    names <> [] ->
    Forall ConfigInv.isName names ->
    Config.getAllHostnames (ConfigInv.hostnameLine names) None
    = Config.Names (Config.NewString names)
    /\ (forall x, In x (Config.NewString names) <-> In x names)
    /\ Sorted String_as_OT.lt (Config.NewString names)
    /\ NoDup (Config.NewString names).
Proof.
  intros names N F.
  split; [|split; [|split]].
  - unfold Config.getAllHostnames.
    rewrite HostnameFacts.hostnameLine_spaced, HostnameFacts.dropLast_snoc.
    rewrite (HostnameFacts.Trim_spaced F).
    rewrite (HostnameFacts.Split_joinSpaces N F). reflexivity.
  - intros x. apply HostnameFacts.NewString_In.
  - apply HostnameFacts.NewString_Sorted.
  - apply HostnameFacts.Sorted_NoDup, HostnameFacts.NewString_Sorted.
Qed.

(** The theorem for a host with two names, one of them listed twice. *)
Lemma getAllHostnames_hostnameLine_witness :
  Config.getAllHostnames
    (ConfigInv.hostnameLine ["node.example.com"; "edge"; "node.example.com"])
    None
  = Config.Names ["edge"; "node.example.com"].
Proof.
  apply (@getAllHostnames_hostnameLine
           ["node.example.com"; "edge"; "node.example.com"]).
  - discriminate.
  - repeat constructor; discriminate.
Defined.

(** * The run command, further *)

Module RunMore.

Import Run RunInv RunLog RunFacts.

(** The timer of the second select is never more than one grace period
    ahead of the clock. *)
Lemma timer_near_step w l w' :
  (forall t, main w = ShuttingDown t -> (t <= now w + gracePeriod)%Z) ->
  step w l = Some w' ->
  forall t, main w' = ShuttingDown t -> (t <= now w' + gracePeriod)%Z.
Proof.
  intros P S.
  step_cases S; cbn -[gracePeriod Z.add]; intros t M;
    try (apply P; congruence);
    try (injection M as <-; lia); try discriminate M.
  pose proof (P t M). lia.
Qed.

Lemma timer_near rd sock name tr w t :
  exec (init rd sock name) tr = Some w ->
  main w = ShuttingDown t -> (t <= now w + gracePeriod)%Z.
Proof.
  intros E.
  apply (@exec_invariant
           (fun x => forall t, main x = ShuttingDown t ->
                               (t <= now x + gracePeriod)%Z)
           timer_near_step tr (init rd sock name) w); [|exact E].
  cbn. discriminate.
Qed.

(** From the second select the clock alone brings the main goroutine to
    its return. *)
Lemma timeout_schedule w t :
  main w = ShuttingDown t ->
  exists w',
    exec w [Tick (Z.to_N (t - now w)); Main CaseTimeout] = Some w'
    /\ main w' = Stopped None
    /\ now w' = (now w + Z.of_N (Z.to_N (t - now w)))%Z.
Proof.
  intros M. cbn [exec].
  change (step w (Tick (Z.to_N (t - now w))))
    with (Some (advance (Z.of_N (Z.to_N (t - now w))) w)).
  cbv beta iota.
  assert (M' : main (advance (Z.of_N (Z.to_N (t - now w))) w) = ShuttingDown t)
    by exact M.
  destruct (@second_select _ _ M') as [_ [HT _]].
  rewrite HT by (cbn; lia).
  eexists. split; [reflexivity|]. split; reflexivity.
Qed.

(** A delivered signal takes the main goroutine out of the first select
    and out of [Ready]. *)
Lemma signal_schedule w s :
  shutdownBegun (main w) = false ->
  exists c w',
    step (deliver s w) (Main c) = Some w'
    /\ main w' = ShuttingDown (now w + gracePeriod)
    /\ now w' = now w.
Proof.
  intros B.
  destruct (TriggerFacts.deliver_frame s w) as [Em [En _]].
  pose proof (TriggerFacts.deliver_nonempty s w) as Q.
  destruct (sigTerm (deliver s w)) as [|x q] eqn:Sg; [congruence|].
  destruct (main w) eqn:M; try discriminate B.
  - exists CaseSigTerm. eexists. cbn [step]. unfold mainStep.
    rewrite Em, Sg. split; [reflexivity|]. cbn. rewrite En. auto.
  - exists RecvSigTerm. eexists. cbn [step]. unfold mainStep.
    rewrite Em, Sg. split; [reflexivity|]. cbn. rewrite En. auto.
Qed.

Lemma gracePeriod_nonneg : (0 <= gracePeriod)%Z.
Proof. vm_compute. discriminate. Qed.

Lemma readLog_app p l1 : forall l2,
  readLog p (l1 ++ l2)
  = match readLog p l1 with
    | Some q => readLog q l2
    | None => None
    end.
Proof.
  revert p. induction l1 as [|l l1 IH]; cbn; intros p l2; [reflexivity|].
  destruct (nextPhase p l); [apply IH | reflexivity].
Qed.

Lemma readLog_step w l w' :
  readLog PStart (log w) = Some (phaseOf (main w)) ->
  step w l = Some w' ->
  readLog PStart (log w') = Some (phaseOf (main w')).
Proof.
  intros P S.
  step_cases S; cbn;
    rewrite ?readLog_app, ?P;
    repeat match goal with E : main w = _ |- _ => rewrite E in *; clear E end;
    cbn; rewrite ?readLog_app, ?P; cbn;
    try reflexivity;
    try (destruct err; cbn; rewrite ?readLog_app, ?P; reflexivity).
  all: match goal with
       | |- context [notifyLine ?r] =>
           destruct (notifyLine_cases r) as [[? ->] | [-> | ->]]; reflexivity
       end.
Qed.

(** What the watcher and the manager's goroutine have logged. *)
Record OthersLogged (name : string) (w : State) : Prop := mkOthersLogged {
  ol_name : mName w = name;
  ol_watcher :
    logged isRotation w + logged isWatcherExit w = b2n (exited (watcher w));
  ol_started :
    logged (isManagerStarted name) w = b2n (started (manager w));
  ol_result :
    logged (isManagerResult name) w = b2n (returned (manager w));
  ol_lines :
    logged isManagerLine w
    = logged (isManagerStarted name) w + logged (isManagerResult name) w
}.

Lemma OthersLogged_step name w l w' :
  OthersLogged name w -> step w l = Some w' -> OthersLogged name w'.
Proof.
  intros [N W S R L] St.
  step_cases St; rewrite_pcs; split; cbn in *; try assumption;
    unfold logged in *; cbn in *;
    rewrite ?filter_app, ?length_app in *; cbn in *;
    rewrite ?N, ?String.eqb_refl in *; cbn in *;
    try match goal with
        | |- context [notifyLine ?r] =>
            destruct (notifyLine_cases r) as [[? ->] | [-> | ->]]; cbn
        end;
    try lia.
Qed.

Lemma sigTerm_bound_step w l w' :
  (List.length (sigTerm w) <= 1)%nat -> step w l = Some w' ->
  (List.length (sigTerm w') <= 1)%nat.
Proof.
  intros B S. step_cases S; cbn in *; try assumption.
  all: try (rewrite length_app; cbn;
            match goal with
            | E : (_ <=? 0)%nat = true |- _ => apply Nat.leb_le in E
            end; lia).
  all: lia.
Qed.

End RunMore.

(** X12.  A signal always stops the process within the grace period: from
    every reachable state there is a schedule of signal delivery, clock
    ticks and steps of the main goroutine alone, needing nothing from the
    service manager or the watcher, after which [RunMicroshift] has
    returned nil, no more than one grace period later. *)
Theorem signal_always_stops :
  forall (rd : Z) (sock name : string) (tr0 : list Run.Label) (w : Run.State),
    Run.exec (Run.init rd sock name) tr0 = Some w ->
    exists tr w',
      Run.exec w tr = Some w'
      /\ Run.main w' = Run.Stopped None
      /\ Forall (fun l => RunLog.needsNoOthers l = true) tr
      /\ (Run.now w <= Run.now w' <= Run.now w + gracePeriod)%Z.
Proof.
  intros rd sock name tr0 w E.
  pose proof RunMore.gracePeriod_nonneg as G.
  destruct (Run.main w) as [ | | t | r] eqn:M.
  1, 2:
    (destruct (@RunMore.signal_schedule w Run.SIGTERM) as [c [w1 [S1 [M1 N1]]]];
     [rewrite M; reflexivity|];
     destruct (RunMore.timeout_schedule _ M1) as [w2 [E2 [M2 N2]]];
     exists (Run.Deliver Run.SIGTERM :: Run.Main c
             :: [Run.Tick (Z.to_N (Run.now w + gracePeriod - Run.now w1));
                 Run.Main Run.CaseTimeout]), w2;
     split;
     [cbn [Run.exec];
      change (Run.step w (Run.Deliver Run.SIGTERM))
        with (Some (Run.deliver Run.SIGTERM w));
      cbv beta iota; rewrite S1; exact E2|];
     split; [exact M2|];
     split; [repeat constructor|];
     rewrite N2, N1; lia).
  - pose proof (RunMore.timer_near _ _ _ _ E M) as T.
    destruct (RunMore.timeout_schedule _ M) as [w2 [E2 [M2 N2]]].
    exists [Run.Tick (Z.to_N (t - Run.now w)); Run.Main Run.CaseTimeout], w2.
    split; [exact E2|]. split; [exact M2|].
    split; [repeat constructor|]. rewrite N2. lia.
  - exists [], w. split; [reflexivity|].
    pose proof (@RunFacts.run_Inv_exec _ _ _ _ _ E) as I.
    rewrite (RunInv.inv_result I M) in M.
    split; [exact M|]. split; [constructor | lia].
Qed.

(** The theorem on a session whose services are up and never stop. *)
Lemma signal_always_stops_witness :
  exists tr w',
    Run.exec (Run.announce None
                (Run.setReady (Run.init 86400000000000 "" "service-manager")))
             tr = Some w'
    /\ Run.main w' = Run.Stopped None.
Proof.
  destruct (@signal_always_stops
              86400000000000 "" "service-manager"
              [Run.ManagerReady; Run.Main (Run.CaseReady None)] _ eq_refl)
    as [tr [w' [E [M _]]]].
  exists tr, w'. split; [exact E | exact M].
Defined.

(** X13.  A failed readiness handshake is not fatal.  Whatever
    [daemon.SdNotify] returns, the ready case logs "MicroShift is ready"
    and one line about the handshake, leaves both contexts and the signal
    channel as they were, and ends in [Ready], from where a signal starts
    the shutdown.  The line says "not supported" when no NOTIFY_SOCKET had
    been stored, a warning with the error when the write failed, and
    "sent" otherwise. *)
Theorem handshake_failure_not_fatal :
  forall (w : Run.State) (io : option string) (w1 : Run.State),
    Run.step w (Run.Main (Run.CaseReady io)) = Some w1 ->
    Run.main w1 = Run.Ready
    /\ Run.log w1
       = (Run.log w ++ [Run.LReady;
                        Run.notifyLine (Run.SdNotify (Run.notifySocket w) io)])%list
    /\ (Run.notifySocket w = "" ->
        Run.notifyLine (Run.SdNotify (Run.notifySocket w) io)
        = Run.LNotifyUnsupported)
    /\ (Run.notifySocket w <> "" ->
        (io = None ->
         Run.notifyLine (Run.SdNotify (Run.notifySocket w) io) = Run.LNotifySent)
        /\ (forall e, io = Some e ->
              Run.notifyLine (Run.SdNotify (Run.notifySocket w) io)
              = Run.LNotifyError e))
    /\ Run.runCtx w1 = Run.runCtx w
    /\ Run.certCtx w1 = Run.certCtx w
    /\ Run.sigTerm w1 = Run.sigTerm w
    /\ (forall s, exists w2,
          Run.step (Run.deliver s w1) (Run.Main Run.RecvSigTerm) = Some w2
          /\ Run.main w2 = Run.ShuttingDown (Run.now w + gracePeriod)).
Proof.
  intros w io w1 S.
  destruct (NotifyFacts.ready_case _ _ S) as [M [R ->]].
  split; [reflexivity|]. split.
  { cbn. rewrite <- app_assoc. reflexivity. }
  split.
  { intros ->. reflexivity. }
  split.
  { intros N. unfold Run.SdNotify.
    destruct (String.eqb_spec (Run.notifySocket w) "") as [E | _];
      [contradiction|].
    split; [intros ->; reflexivity | intros e ->; reflexivity]. }
  split; [reflexivity|]. split; [reflexivity|]. split; [reflexivity|].
  intros s.
  destruct (@RunMore.signal_schedule (Run.announce io w) s eq_refl)
    as [c [w2 [S2 [M2 _]]]].
  exists w2. split; [|exact M2].
  destruct c; try exact S2;
    (cbn [Run.step] in S2; unfold Run.mainStep in S2;
     destruct (TriggerFacts.deliver_frame s (Run.announce io w)) as [Em _];
     rewrite Em in S2; cbn in S2; discriminate S2).
Qed.

(** The theorem when the write to the notification socket fails. *)
Lemma handshake_failure_not_fatal_witness :
  Run.log (Run.announce (Some "connection refused")
             (Run.setReady
                (Run.init 86400000000000 "/run/systemd/notify" "service-manager")))
  = [Run.LStarting; Run.LReady; Run.LNotifyError "connection refused"].
Proof.
  apply (@handshake_failure_not_fatal
           (Run.setReady
              (Run.init 86400000000000 "/run/systemd/notify" "service-manager"))
           (Some "connection refused") _ eq_refl).
Defined.

(** X14.  The lines the main goroutine logs always come in the order of
    the code: "Starting MicroShift"; then possibly "MicroShift is ready"
    with one line about the handshake right after it; then possibly
    "Interrupt received" (always, if readiness was logged); then "Stopping
    services"; then possibly the timeout line; then "MicroShift stopped".
    Reading any reachable log by these rules succeeds and ends in the phase
    the main goroutine is in; lines of the watcher and of the manager's
    goroutine may come anywhere in between. *)
Theorem main_log_in_order :
  forall (rd : Z) (sock name : string) (tr : list Run.Label) (w : Run.State),
    Run.exec (Run.init rd sock name) tr = Some w ->
    RunLog.readLog RunLog.PStart (Run.log w)
    = Some (RunLog.phaseOf (Run.main w)).
Proof.
  intros rd sock name tr w E.
  apply (@RunFacts.exec_invariant
           (fun x => RunLog.readLog RunLog.PStart (Run.log x)
                     = Some (RunLog.phaseOf (Run.main x)))
           RunMore.readLog_step tr (Run.init rd sock name) w);
    [reflexivity | exact E].
Qed.

(** The theorem on a session that became ready and was then interrupted. *)
Lemma main_log_in_order_witness :
  RunLog.readLog RunLog.PStart
    [Run.LStarting; Run.LManagerStarted "service-manager"; Run.LReady;
     Run.LNotifySent; Run.LInterrupt; Run.LStopping]
  = Some RunLog.PStopping.
Proof.
  pose proof (@main_log_in_order
                1000 "/run/systemd/notify" "service-manager"
                [Run.ManagerStart; Run.ManagerReady;
                 Run.Main (Run.CaseReady None);
                 Run.Deliver Run.SIGTERM; Run.Main Run.RecvSigTerm]) as H.
  specialize (H _ ltac:(vm_compute; reflexivity)).
  vm_compute in H. exact H.
Defined.

(** X15.  The two helper goroutines log once each step of their lives: in
    every reachable state the watcher has logged exactly one line (the
    rotation message or its exit message) if it has returned and none
    otherwise; the manager's goroutine has logged "Started" with the
    manager's name once it has started, and one result line (the error or
    "completed") once [m.Run] has returned, and no other line. *)
Theorem helper_goroutines_log_once :
  forall (rd : Z) (sock name : string) (tr : list Run.Label) (w : Run.State),
    Run.exec (Run.init rd sock name) tr = Some w ->
    RunInv.logged RunInv.isRotation w + RunInv.logged RunLog.isWatcherExit w
    = RunInv.b2n (RunInv.exited (Run.watcher w))
    /\ RunInv.logged (RunLog.isManagerStarted name) w
       = RunInv.b2n (RunLog.started (Run.manager w))
    /\ RunInv.logged (RunLog.isManagerResult name) w
       = RunInv.b2n (RunLog.returned (Run.manager w))
    /\ RunInv.logged RunLog.isManagerLine w
       = RunInv.logged (RunLog.isManagerStarted name) w
         + RunInv.logged (RunLog.isManagerResult name) w.
Proof.
  intros rd sock name tr w E.
  assert (O : RunMore.OthersLogged name w).
  { apply (@RunFacts.exec_invariant (RunMore.OthersLogged name)
             (@RunMore.OthersLogged_step name) tr (Run.init rd sock name) w);
      [|exact E].
    split; reflexivity. }
  destruct O as [_ W S R L]. auto.
Qed.

(** The theorem on a session in which [m.Run] fails at once. *)
Lemma helper_goroutines_log_once_witness :
  RunInv.logged (RunLog.isManagerResult "service-manager")
    (Run.setManager Run.ManagerReturned
       (Run.logf (Run.LManagerFailed "service-manager" "etcd failed")
          (Run.setManager Run.ManagerRunning
             (Run.logf (Run.LManagerStarted "service-manager")
                (Run.init 1000 "" "service-manager")))))
  = 1.
Proof.
  apply (@helper_goroutines_log_once
           1000 "" "service-manager"
           [Run.ManagerStart; Run.ManagerReturn (Some "etcd failed")] _ eq_refl).
Defined.

(** X16.  The signal channel holds at most one signal: in every reachable
    state at most one is pending, and a signal delivered while one is
    pending is dropped.  Which of the two signals was delivered makes no
    difference to the main goroutine: taking it from the channel leads to
    the same state for an interrupt as for SIGTERM. *)
Theorem signal_channel_holds_one :
  forall (rd : Z) (sock name : string) (tr : list Run.Label) (w : Run.State),
    Run.exec (Run.init rd sock name) tr = Some w ->
    (List.length (Run.sigTerm w) <= 1)%nat
    /\ (forall s1 s2, Run.deliver s2 (Run.deliver s1 w) = Run.deliver s1 w)
    /\ (forall c, c = Run.CaseSigTerm \/ c = Run.RecvSigTerm ->
          Run.step (Run.deliver Run.Interrupt w) (Run.Main c)
          = Run.step (Run.deliver Run.SIGTERM w) (Run.Main c)).
Proof.
  intros rd sock name tr w E.
  assert (B : (List.length (Run.sigTerm w) <= 1)%nat).
  { apply (@RunFacts.exec_invariant
             (fun x => (List.length (Run.sigTerm x) <= 1)%nat)
             RunMore.sigTerm_bound_step tr (Run.init rd sock name) w);
      [cbn; lia | exact E]. }
  split; [exact B|]. split.
  - intros s1 s2. unfold Run.deliver.
    destruct (Run.sigTerm w) as [|x q] eqn:Q; cbn; rewrite ?Q; reflexivity.
  - intros c Hc. unfold Run.deliver.
    destruct (Run.sigTerm w) as [|x q] eqn:Q; cbn [List.length Nat.ltb Nat.leb];
      [|reflexivity].
    destruct Hc as [-> | ->]; cbn [Run.step]; unfold Run.mainStep; cbn;
      destruct (Run.main w); reflexivity.
Qed.

(** The theorem on a session that is sent SIGTERM, then an interrupt. *)
Lemma signal_channel_holds_one_witness :
  Run.sigTerm (Run.deliver Run.Interrupt
                 (Run.deliver Run.SIGTERM (Run.init 1000 "" "service-manager")))
  = [Run.SIGTERM].
Proof.
  rewrite (proj1 (proj2 (@signal_channel_holds_one
                           1000 "" "service-manager" [] _ eq_refl))).
  reflexivity.
Defined.
